(** * The n-th prime by bound estimation and Miller-Rabin testing

    A shallow embedding of [src/main.py]: the bound estimator
    [location_approximator], the primality oracle [miller_rabin] and the
    search orchestrator [nth_prime], followed by the properties proved
    about them.

    Python integers are unbounded, so they are [Z]; [%] and [//] with a
    positive right operand are [Z.modulo] and [Z.div] (both floor).  Python
    floats are IEEE binary64, so they are the primitive [float] of the
    Standard Library.  A [while] loop whose trip count is not bounded by a
    [range] takes a fuel argument and yields [None] when the fuel runs out. *)

From Stdlib Require Import ZArith List Lia Bool Zdivisibility Znumtheory.
From Stdlib Require Import ZmodInv Permutation.
From Stdlib Require Import PrimFloat FloatOps SpecFloat FloatAxioms Uint63.
Import ListNotations.
Local Open Scope Z_scope.

(** ** Python built-ins used by the source *)

Module Py.

(** Exceptions the built-ins can raise. *)
Inductive exn : Type :=
| ValueError
| OverflowError
| ZeroDivisionError
| UnboundLocalError.

(** The outcome of an expression that may raise. *)
Inductive res (A : Type) : Type :=
| OK (a : A)
| Raise (e : exn).
Arguments OK {A} a.
Arguments Raise {A} e.

Definition bind {A B : Type} (c : res A) (k : A -> res B) : res B :=
  match c with
  | OK a => k a
  | Raise e => Raise e
  end.

Notation "x <- c ;; k" := (bind c (fun x => k))
  (at level 61, c at next level, right associativity).

(** [pow(a, e, m)] by square-and-multiply over the bits of the exponent,
    reducing after every product.  The source only calls it with an
    exponent [e >= 1] and a modulus [m >= 5]. *)
Fixpoint pow_pos (a : Z) (e : positive) (m : Z) : Z :=
  match e with
  | xH => a mod m
  | xO e' => let h := pow_pos a e' m in (h * h) mod m
  | xI e' => let h := pow_pos a e' m in (((h * h) mod m) * a) mod m
  end.

Definition pow (a e m : Z) : Z :=
  match e with
  | Z0 => 1 mod m
  | Zpos p => pow_pos a p m
  | Zneg _ => 0
  end.

(** The double nearest to an integer (ties to even); infinite when the
    integer is beyond the range of binary64. *)
Definition float_of_Z (n : Z) : float :=
  SF2Prim (binary_normalize prec emax n 0 false).

(** The conversion applied to an [int] operand of a float operation. *)
Definition to_float (n : Z) : res float :=
  let x := float_of_Z n in
  if is_infinity x then Raise OverflowError else OK x.

(** [n * x] with [n] an [int] and [x] a [float]. *)
Definition mul_int (n : Z) (x : float) : res float :=
  fn <- to_float n ;; OK (fn * x)%float.

(** [x / y] on floats. *)
Definition truediv (x y : float) : res float :=
  if (y =? 0)%float then Raise ZeroDivisionError else OK (x / y)%float.

(** [x ** 2] on a float.  CPython hands it to the [pow] of the platform's
    C library, which is not part of the repository; it is modelled by the
    correctly rounded product [x * x], from which a library's [pow] may
    differ in the last place. *)
Definition square (x : float) : res float :=
  let y := (x * x)%float in
  if is_infinity y && is_finite x then Raise OverflowError else OK y.

(** [int(x)]: truncation toward zero. *)
Definition int (x : float) : res Z :=
  match Prim2SF x with
  | S754_zero _ => OK 0
  | S754_finite s m e =>
      let a := Z.shiftl (Zpos m) e in OK (if s then - a else a)
  | S754_infinity _ => Raise OverflowError
  | S754_nan => Raise ValueError
  end.

(** [math.floor(x)]; the source does not call it, the specification
    states its formulas with it. *)
Definition floor (x : float) : res Z :=
  match Prim2SF x with
  | S754_zero _ => OK 0
  | S754_finite s m e =>
      OK (Z.shiftl (if s then Zneg m else Zpos m) e)
  | S754_infinity _ => Raise OverflowError
  | S754_nan => Raise ValueError
  end.

(** *** The logarithm of the C library

    [math.log] hands a finite positive double to the [log] of the
    platform's C library, which is not part of the repository.  It is
    modelled by the classical double-precision algorithm of fdlibm
    ([e_log.c]): write [x = 2^k * (1 + f)] with [sqrt 2 / 2 < 1 + f < sqrt 2]
    and evaluate [k * ln 2 + log (1 + f)] with a degree-14 polynomial in
    [s = f / (2 + f)].  Its result is within one unit in the last place of
    the logarithm, so another C library may answer a neighbouring double
    on some arguments. *)

Definition ln2_hi : float := 0x1.62e42fee00000p-1.
Definition ln2_lo : float := 0x1.a39ef35793c76p-33.
Definition Lg1 : float := 0x1.5555555555593p-1.
Definition Lg2 : float := 0x1.999999997fa04p-2.
Definition Lg3 : float := 0x1.2492494229359p-2.
Definition Lg4 : float := 0x1.c71c51d8e78afp-3.
Definition Lg5 : float := 0x1.7466496cb03dep-3.
Definition Lg6 : float := 0x1.39a09d078c69fp-3.
Definition Lg7 : float := 0x1.2f112df3e5244p-3.

Definition libm_log (x : float) : float :=
  match Prim2SF x with
  | S754_finite false m e =>
      (* x = m53 * 2^e53 with a 53-bit m53; hx is the top 20 bits of
         the fraction *)
      let sh := 52 - Z.log2 (Zpos m) in
      let m53 := Z.shiftl (Zpos m) sh in
      let e53 := e - sh in
      let hx := Z.shiftr (m53 - 2 ^ 52) 32 in
      let i := if 0x100000 <=? hx + 0x95f64 then 1 else 0 in
      let k := e53 + 52 + i in
      let x1 := SF2Prim (S754_finite false (Z.to_pos m53) (- 52 - i)) in
      let dk := float_of_Z k in
      let f := (x1 - 1)%float in
      if (hx + 2) mod 0x100000 <? 3 then
        if (f =? 0)%float then
          if k =? 0 then 0%float else (dk * ln2_hi + dk * ln2_lo)%float
        else
          let R := (f * f * (0.5 - 0x1.5555555555555p-2 * f))%float in
          if k =? 0 then (f - R)%float
          else (dk * ln2_hi - ((R - dk * ln2_lo) - f))%float
      else
        let s := (f / (2 + f))%float in
        let z := (s * s)%float in
        let w := (z * z)%float in
        let t1 := (w * (Lg2 + w * (Lg4 + w * Lg6)))%float in
        let t2 := (z * (Lg1 + w * (Lg3 + w * (Lg5 + w * Lg7))))%float in
        let R := (t2 + t1)%float in
        if (0x6147a <=? hx) && (hx <=? 0x6b851) then
          let hfsq := (0.5 * f * f)%float in
          if k =? 0 then (f - (hfsq - s * (hfsq + R)))%float
          else (dk * ln2_hi
                - ((hfsq - (s * (hfsq + R) + dk * ln2_lo)) - f))%float
        else
          if k =? 0 then (f - s * (f - R))%float
          else (dk * ln2_hi - ((s * (f - R) - dk * ln2_lo) - f))%float
  | _ => nan
  end.

(** [math.log(x)] on a float: a domain error unless [x] is positive or
    not a number. *)
Definition math_log (x : float) : res float :=
  if is_nan x then OK x
  else if (0 <? x)%float then
    if is_infinity x then OK x else OK (libm_log x)
  else Raise ValueError.

(** The mantissa in [[0.5, 1)] and the exponent of a positive integer,
    for integers too large for a double. *)
Definition frexp_int (n : Z) : float * Z :=
  let e := Z.log2 n + 1 in
  let x := SF2Prim (binary_normalize prec emax n (- e) false) in
  if (x =? 1)%float then (0.5%float, e + 1) else (x, e).

(** [math.log(n)] on an [int]. *)
Definition math_log_int (n : Z) : res float :=
  if n <=? 0 then Raise ValueError
  else
    match to_float n with
    | OK x => math_log x
    | Raise _ =>
        let '(x, e) := frexp_int n in
        lx <- math_log x ;;
        l2 <- math_log 2%float ;;
        OK (lx + l2 * float_of_Z e)%float
    end.

End Py.

Notation "x <- c ;; k" := (Py.bind c (fun x => k))
  (at level 61, c at next level, right associativity).

(** ** The primality oracle *)

(** [while d % 2 == 0: r += 1; d //= 2], lines 104-108. *)
Fixpoint factor_loop (fuel : nat) (r d : Z) : option (Z * Z) :=
  match fuel with
  | O => None
  | S fuel' =>
      if d mod 2 =? 0 then factor_loop fuel' (r + 1) (d / 2)
      else Some (r, d)
  end.

(** [for _ in range(r - 1)], lines 123-128; the result is the flag
    [composite] after the loop. *)
Fixpoint square_loop (k : nat) (num x : Z) : bool :=
  match k with
  | O => true
  | S k' =>
      let x' := Py.pow x 2 num in
      if x' =? num - 1 then false else square_loop k' num x'
  end.


(** [for a in witnesses], lines 111-135. *)
Fixpoint witness_loop (num r d : Z) (ws : list Z) : bool :=
  match ws with
  | [] => true
  | a :: ws' =>
      if a >=? num then witness_loop num r d ws'
      else
        let x := Py.pow a d num in
        if (x =? 1) || (x =? num - 1) then witness_loop num r d ws'
        else if square_loop (Z.to_nat (r - 1)) num x then false
        else witness_loop num r d ws'
  end.

Definition miller_rabin_fuel (fuel : nat) (num : Z) (witnesses : list Z)
  : option bool :=
  if num <? 2 then Some false
  else if (num =? 2) || (num =? 3) then Some true
  else if num mod 2 =? 0 then Some false
  else
    match factor_loop fuel 0 (num - 1) with
    | None => None
    | Some (r, d) => Some (witness_loop num r d witnesses)
    end.

(** Fuel that the factoring loop never exhausts (see
    [miller_rabin_fuel_enough]). *)
Definition factor_fuel (num : Z) : nat := S (Z.to_nat (Z.log2 num)).

Definition miller_rabin (num : Z) (witnesses : list Z) : bool :=
  match miller_rabin_fuel (factor_fuel num) num witnesses with
  | Some b => b
  | None => false
  end.

(** ** The bound estimator *)

(** Lines 44-48: the Rosser-Schoenfeld pair. *)
Definition rosser_schoenfeld (n : Z) (ln_n ln_ln_n : float)
  : Py.res (Z * Z) :=
  x <- Py.mul_int n (ln_n + ln_ln_n - 1)%float ;;
  lower_bound <- Py.int x ;;
  y <- Py.mul_int n (ln_n + ln_ln_n)%float ;;
  upper <- Py.int y ;;
  Py.OK (lower_bound, upper + 1).

(** Lines 52-60: Dusart's pair; [0x1.6a45a1cac0831p+3] is the double of
    the literal [11.321]. *)
Definition dusart (n : Z) (ln_n ln_ln_n : float) : Py.res (Z * Z) :=
  lower_term <- Py.truediv (ln_ln_n - 2)%float ln_n ;;
  sq <- Py.square ln_ln_n ;;
  sqn <- Py.square ln_n ;;
  lower_correction <-
    Py.truediv (sq - 6 * ln_ln_n + 0x1.6a45a1cac0831p+3)%float
               (2 * sqn)%float ;;
  x <- Py.mul_int n
         (ln_n + ln_ln_n - 1 + lower_term - lower_correction)%float ;;
  lower_bound <- Py.int x ;;
  upper_term <- Py.truediv (ln_ln_n - 2)%float ln_n ;;
  sq' <- Py.square ln_ln_n ;;
  sqn' <- Py.square ln_n ;;
  upper_correction <-
    Py.truediv (sq' - 6 * ln_ln_n)%float (2 * sqn')%float ;;
  y <- Py.mul_int n
         (ln_n + ln_ln_n - 1 + upper_term - upper_correction)%float ;;
  upper <- Py.int y ;;
  Py.OK (lower_bound, upper + 1).

(** Lines 39-65: the pair before the odd-start adjustment, for an [n]
    that is none of 1, 2, 3.  The two variables are unbound until one of
    the three [if] statements assigns them. *)
Definition unadjusted_bounds (n : Z) : Py.res (Z * Z) :=
  ln_n <- Py.math_log_int n ;;
  ln_ln_n <- Py.math_log ln_n ;;
  b1 <- (if n >=? 6
         then b <- rosser_schoenfeld n ln_n ln_ln_n ;; Py.OK (Some b)
         else Py.OK None) ;;
  b2 <- (if n >=? 688383
         then b <- dusart n ln_n ln_ln_n ;; Py.OK (Some b)
         else Py.OK b1) ;;
  match (if n <? 6 then Some (2, 30) else b2) with
  | Some b => Py.OK b
  | None => Py.Raise Py.UnboundLocalError
  end.

(** Lines 67-71: the odd starting point. *)
Definition odd_start (b : Z * Z) : Z * Z :=
  let '(lower_bound, upper_bound) := b in
  if (lower_bound >? 2) && (lower_bound mod 2 =? 0)
  then (lower_bound + 1, upper_bound)
  else (lower_bound, upper_bound).

Definition location_approximator (n : Z) : Py.res (Z * Z) :=
  if n =? 1 then Py.OK (2, 2)
  else if n =? 2 then Py.OK (3, 3)
  else if n =? 3 then Py.OK (5, 5)
  else b <- unadjusted_bounds n ;; Py.OK (odd_start b).

(** ** The search orchestrator *)

Definition witnesses : list Z := [2; 3; 5; 7; 11; 13; 17].

(** [while candidate < lower_bound], lines 175-178; the result is
    [prime_count] after the loop. *)
Fixpoint count_below (fuel : nat) (lower_bound prime_count candidate : Z)
  : option Z :=
  match fuel with
  | O => None
  | S fuel' =>
      if candidate <? lower_bound then
        count_below fuel' lower_bound
          (if miller_rabin candidate witnesses
           then prime_count + 1 else prime_count)
          (candidate + 2)
      else Some prime_count
  end.

(** How a search loop is left: by its [return], or by its condition
    turning false with the variables as given. *)
Inductive loop_exit : Type :=
| Returned (v : Z)
| Fell (prime_count candidate : Z).

(** [while prime_count < n and candidate <= upper_bound], lines 189-199. *)
Fixpoint bounded_search (fuel : nat) (n upper_bound prime_count candidate : Z)
  : option loop_exit :=
  match fuel with
  | O => None
  | S fuel' =>
      if (prime_count <? n) && (candidate <=? upper_bound) then
        let next := if candidate =? 2 then 3 else candidate + 2 in
        if (candidate =? 2)
           || ((candidate >? 2) && miller_rabin candidate witnesses)
        then
          if prime_count + 1 =? n then Some (Returned candidate)
          else bounded_search fuel' n upper_bound (prime_count + 1) next
        else bounded_search fuel' n upper_bound prime_count next
      else Some (Fell prime_count candidate)
  end.

(** [while prime_count < n], lines 202-207, and the [return] of line 209. *)
Fixpoint fallback_search (fuel : nat) (n prime_count candidate : Z)
  : option Z :=
  match fuel with
  | O => None
  | S fuel' =>
      if prime_count <? n then
        if miller_rabin candidate witnesses then
          if prime_count + 1 =? n then Some candidate
          else fallback_search fuel' n (prime_count + 1) (candidate + 2)
        else fallback_search fuel' n prime_count (candidate + 2)
      else Some candidate
  end.

(** [None] is fuel exhaustion; [Some (Py.Raise e)] is an exception that
    leaves [nth_prime]. *)
Definition nth_prime (fuel : nat) (n : Z) : option (Py.res Z) :=
  if n =? 1 then Some (Py.OK 2)
  else
    match location_approximator n with
    | Py.Raise e => Some (Py.Raise e)
    | Py.OK (lower_bound, upper_bound) =>
        match count_below fuel lower_bound 1 3 with
        | None => None
        | Some prime_count =>
            let candidate :=
              if lower_bound =? 2 then 2
              else if lower_bound mod 2 =? 0 then lower_bound + 1
              else lower_bound in
            match bounded_search fuel n upper_bound prime_count candidate with
            | None => None
            | Some (Returned v) => Some (Py.OK v)
            | Some (Fell prime_count' candidate') =>
                match fallback_search fuel n prime_count' candidate' with
                | None => None
                | Some v => Some (Py.OK v)
                end
            end
        end
    end.

(** ** Reference notions used to state the properties *)

(** 1 when the oracle confirms [q], else 0. *)
Definition confirmed (q : Z) : Z :=
  if miller_rabin q witnesses then 1 else 0.

(** The linear scan of the round-trip property: how many of the [k]
    integers from [q] on does the oracle confirm. *)
Fixpoint count_confirmed_from (k : nat) (q : Z) : Z :=
  match k with
  | O => 0
  | S k' => confirmed q + count_confirmed_from k' (q + 1)
  end.

(** The number of [q] with [a <= q < b] that the oracle confirms. *)
Definition confirmed_between (a b : Z) : Z :=
  count_confirmed_from (Z.to_nat (b - a)) a.

(** The number of [q] with [2 <= q <= p] that the oracle confirms. *)
Definition count_confirmed (p : Z) : Z := confirmed_between 2 (p + 1).

(** The Rosser-Schoenfeld pair as the specification writes it,
    [lower = floor(n (ln n + ln ln n - 1))] and
    [upper = floor(n (ln n + ln ln n)) + 1], in double precision; the
    conversion to an integer is a parameter, [Py.floor] for the floor of
    the specification and [Py.int] for the truncation of the source. *)
Definition rosser_schoenfeld_formula (to_int : float -> Py.res Z) (n : Z)
  : Py.res (Z * Z) :=
  ln_n <- Py.math_log_int n ;;
  ln_ln_n <- Py.math_log ln_n ;;
  x <- Py.mul_int n (ln_n + ln_ln_n - 1)%float ;;
  lower <- to_int x ;;
  y <- Py.mul_int n (ln_n + ln_ln_n)%float ;;
  upper <- to_int y ;;
  Py.OK (lower, upper + 1).

(** Trial division by the odd numbers from [d] on, as long as their
    square does not exceed [n]. *)
Fixpoint no_divisor_from (fuel : nat) (n d : Z) : bool :=
  match fuel with
  | O => n <? d * d
  | S fuel' =>
      if n <? d * d then true
      else if n mod d =? 0 then false
      else no_divisor_from fuel' n (d + 2)
  end.

(** A primality test by trial division; exact for [n < (3 + 2 * fuel)^2]
    (see [trial_division_prime]). *)
Definition trial_division (fuel : nat) (n : Z) : bool :=
  if n <? 2 then false
  else if n <? 4 then true
  else if n mod 2 =? 0 then false
  else no_divisor_from fuel n 3.

(** ** The oracle, trial division and the logarithm on machine integers

    The same computations on 63-bit integers, used to run the oracle and
    the Rosser-Schoenfeld products over a whole range; the integer ones
    agree with those above below [2^31], where no product wraps around,
    and the logarithm agrees with [Py.libm_log] wherever it answers. *)

Module Fast.

Local Open Scope uint63_scope.

Fixpoint pow_pos (a : int) (e : positive) (m : int) : int :=
  match e with
  | xH => a mod m
  | xO e' => let h := pow_pos a e' m in (h * h) mod m
  | xI e' => let h := pow_pos a e' m in (((h * h) mod m) * a) mod m
  end.

Definition pow (a : int) (e : Z) (m : int) : int :=
  match e with
  | Z0 => 1 mod m
  | Zpos p => pow_pos a p m
  | Zneg _ => 0
  end.

Fixpoint square_loop (k : nat) (num x : int) : bool :=
  match k with
  | O => true
  | S k' =>
      let x' := pow x 2 num in
      if x' =? num - 1 then false else square_loop k' num x'
  end.

Fixpoint witness_loop (num : int) (r d : Z) (ws : list int) : bool :=
  match ws with
  | [] => true
  | a :: ws' =>
      if num <=? a then witness_loop num r d ws'
      else
        let x := pow a d num in
        if (x =? 1) || (x =? num - 1) then witness_loop num r d ws'
        else if square_loop (Z.to_nat (r - 1)) num x then false
        else witness_loop num r d ws'
  end.

Definition miller_rabin (num : Z) (ws : list Z) : bool :=
  if (num <? 2)%Z then false
  else if ((num =? 2) || (num =? 3))%Z then true
  else if (num mod 2 =? 0)%Z then false
  else
    match factor_loop (factor_fuel num) 0 (num - 1) with
    | None => false
    | Some (r, d) => witness_loop (of_Z num) r d (map of_Z ws)
    end.

Fixpoint no_divisor_from (fuel : nat) (n d : int) : bool :=
  match fuel with
  | O => n <? d * d
  | S fuel' =>
      if n <? d * d then true
      else if n mod d =? 0 then false
      else no_divisor_from fuel' n (d + 2)
  end.

Definition trial_division (fuel : nat) (n : Z) : bool :=
  if (n <? 2)%Z then false
  else if (n <? 4)%Z then true
  else if (n mod 2 =? 0)%Z then false
  else no_divisor_from fuel (of_Z n) 3.

(** Do the oracle and trial division agree on the [k] integers from [n]
    on? *)
Fixpoint agree_range (fuel : nat) (k : nat) (n : Z) : bool :=
  match k with
  | O => true
  | S k' =>
      if Bool.eqb (miller_rabin n witnesses) (trial_division fuel n)
      then agree_range fuel k' (n + 1)%Z
      else false
  end.

(** The polynomial part of [Py.libm_log], for a reduced argument [x1] in
    [[sqrt 2 / 2, sqrt 2)] and the double [dk] of the exponent; the three
    flags are its tests on the top bits [hx] of the fraction and on the
    exponent. *)
Definition log_kernel (near_one mid k0 : bool) (x1 dk : float) : float :=
  let f := (x1 - 1)%float in
  if near_one then
    if (f =? 0)%float then
      if k0 then 0%float else (dk * Py.ln2_hi + dk * Py.ln2_lo)%float
    else
      let R := (f * f * (0.5 - 0x1.5555555555555p-2 * f))%float in
      if k0 then (f - R)%float
      else (dk * Py.ln2_hi - ((R - dk * Py.ln2_lo) - f))%float
  else
    let s := (f / (2 + f))%float in
    let z := (s * s)%float in
    let w := (z * z)%float in
    let t1 := (w * (Py.Lg2 + w * (Py.Lg4 + w * Py.Lg6)))%float in
    let t2 :=
      (z * (Py.Lg1 + w * (Py.Lg3 + w * (Py.Lg5 + w * Py.Lg7))))%float in
    let R := (t2 + t1)%float in
    if mid then
      let hfsq := (0.5 * f * f)%float in
      if k0 then (f - (hfsq - s * (hfsq + R)))%float
      else (dk * Py.ln2_hi
            - ((hfsq - (s * (hfsq + R) + dk * Py.ln2_lo)) - f))%float
    else
      if k0 then (f - s * (f - R))%float
      else (dk * Py.ln2_hi - ((s * (f - R) - dk * Py.ln2_lo) - f))%float.

(** [Py.libm_log] on a double that is at least 1, with the mantissa and
    the exponent taken by the primitive operations instead of [Prim2SF];
    [None] outside that range (see [fast_libm_log]). *)
Definition libm_log (x : float) : option float :=
  if is_nan x || PrimFloat.is_zero x || is_infinity x || get_sign x
  then None
  else
    let (r, se) := frshiftexp x in
    let mant := normfr_mantissa r in
    if (4503599627370496 <=? mant) && (mant <? 9007199254740992)
       && (2102 <=? se) && (se <=? 3125)
    then
      let hx := (mant - 4503599627370496) >> 32 in
      let i := if 0x100000 <=? hx + 0x95f64 then 1 else 0 in
      let k := se - 2102 + i in
      Some (log_kernel ((hx + 2) mod 0x100000 <? 3)
              ((0x6147a <=? hx) && (hx <=? 0x6b851)) (k =? 0)
              (ldshiftexp (of_uint63 mant) (2049 - i)) (of_uint63 k))
    else None.

(** Do both logarithms of lines 39-40 succeed at the index [i], and are
    the two products of lines 44-47 doubles that are neither negative nor
    infinite? *)
Definition rosser_ok (i : int) : bool :=
  let fn := of_uint63 i in
  negb (is_infinity fn) && negb (is_nan fn) && (0 <? fn)%float &&
  match libm_log fn with
  | None => false
  | Some ln_n =>
      negb (is_nan ln_n) && (0 <? ln_n)%float && negb (is_infinity ln_n) &&
      match libm_log ln_n with
      | None => false
      | Some ln_ln_n =>
          let x := (fn * (ln_n + ln_ln_n - 1))%float in
          let y := (fn * (ln_n + ln_ln_n))%float in
          (0 <=? x)%float && (x <? infinity)%float &&
          (0 <=? y)%float && (y <? infinity)%float
      end
  end.

(** [rosser_ok] on the [k] indices from [n] on. *)
Fixpoint rosser_range (k : nat) (n : Z) : bool :=
  match k with
  | O => true
  | S k' => if rosser_ok (of_Z n) then rosser_range k' (n + 1)%Z else false
  end.

End Fast.

(** What is known when a search loop is left, if it was entered on an odd
    candidate with the count of the confirmed integers below it. *)
Definition exit_ok (n : Z) (r : loop_exit) : Prop :=
  match r with
  | Returned v =>
      miller_rabin v witnesses = true /\ count_confirmed v = n
  | Fell prime_count candidate =>
      3 <= candidate /\ candidate mod 2 = 1 /\
      prime_count = confirmed_between 2 candidate /\ prime_count < n
  end.

(** Witness lists the machine-integer oracle can take. *)
Definition small_witnesses (ws : list Z) : Prop :=
  Forall (fun a => 0 <= a <= 2 ^ 31) ws.

(** ** Notions used by the further properties *)

(** The condition of the docstring of [miller_rabin] for a witness [a] of
    [num], where [num - 1 = 2^r * d]: either [a^d = 1], or
    [a^(2^i * d) = -1] for some [0 <= i < r], modulo [num]. *)
Definition strong_probable_prime (num r d a : Z) : Prop :=
  a ^ d mod num = 1 \/
  exists i, 0 <= i < r /\ a ^ (2 ^ i * d) mod num = num - 1.

(** A witness the loop does not skip must not be a multiple of [num]. *)
Definition usable_witness (num a : Z) : Prop :=
  num <= a \/ a mod num <> 0.

(** The first candidate of the search, lines 181-186. *)
Definition start_candidate (lower_bound : Z) : Z :=
  if lower_bound =? 2 then 2
  else if lower_bound mod 2 =? 0 then lower_bound + 1
  else lower_bound.

(** A candidate the search can be on: 2 or an odd number. *)
Definition two_or_odd (c : Z) : Prop := c = 2 \/ c mod 2 = 1.

(** The exit of a search loop with its count moved by [k]. *)
Definition shift_exit (k : Z) (r : loop_exit) : loop_exit :=
  match r with
  | Returned v => Returned v
  | Fell prime_count candidate => Fell (prime_count + k) candidate
  end.

(** An outcome that is not the exception [e]. *)
Definition never_raises {A : Type} (e : Py.exn) (c : Py.res A) : Prop :=
  match c with
  | Py.OK _ => True
  | Py.Raise e' => e' <> e
  end.

(** Primality decided by trial division with fuel that always suffices. *)
Definition primeb (q : Z) : bool := trial_division (Z.to_nat q) q.

(** How many of the [k] integers from [q] on are prime. *)
Fixpoint prime_count_from (k : nat) (q : Z) : Z :=
  match k with
  | O => 0
  | S k' => (if primeb q then 1 else 0) + prime_count_from k' (q + 1)
  end.

(** The number of primes [q] with [2 <= q <= p]. *)
Definition prime_pi (p : Z) : Z := prime_count_from (Z.to_nat (p + 1 - 2)) 2.

(** ** Properties of the built-ins *)

Lemma pow_pos_spec (a : Z) (e : positive) (m : Z) :
  Py.pow_pos a e m = (a ^ Zpos e) mod m.
Proof.
  induction e as [e IH | e IH | ]; simpl Py.pow_pos.
  - rewrite IH, Pos2Z.inj_xI.
    rewrite Z.pow_add_r, Z.pow_1_r by lia.
    replace (2 * Z.pos e) with (Z.pos e + Z.pos e) by lia.
    rewrite Z.pow_add_r by lia.
    rewrite <- Zmult_mod.
    rewrite Zmult_mod_idemp_l. reflexivity.
  - rewrite IH, Pos2Z.inj_xO.
    replace (2 * Z.pos e) with (Z.pos e + Z.pos e) by lia.
    rewrite Z.pow_add_r by lia.
    rewrite <- Zmult_mod. reflexivity.
  - rewrite Z.pow_1_r. reflexivity.
Qed.

Lemma pow_spec (a e m : Z) : 0 <= e -> Py.pow a e m = (a ^ e) mod m.
Proof.
  intros He. destruct e as [ | p | p ]; simpl Py.pow.
  - reflexivity.
  - apply pow_pos_spec.
  - lia.
Qed.

(** ** Termination of the factoring loop *)

Lemma factor_loop_enough (fuel : nat) :
  forall r d, 0 < d -> (Z.to_nat (Z.log2 d) < fuel)%nat ->
    exists r' d', factor_loop fuel r d = Some (r', d').
Proof.
  induction fuel as [ | fuel IH]; intros r d Hd Hf; [lia | ].
  simpl. destruct (d mod 2 =? 0) eqn:E.
  - apply Z.eqb_eq in E.
    assert (Hd2 : d = 2 * (d / 2)).
    { pose proof (Z.div_mod d 2). lia. }
    assert (Hpos : 0 < d / 2) by lia.
    apply IH; [exact Hpos | ].
    assert (Z.log2 d = Z.succ (Z.log2 (d / 2))).
    { rewrite Hd2 at 1. apply Z.log2_double. exact Hpos. }
    pose proof (Z.log2_nonneg (d / 2)). lia.
  - eauto.
Qed.



(** ** The base cases and the termination of the oracle *)

(** C6: whatever the witness list, [miller_rabin] answers false below 2,
    true on 2 and on 3, and false on every even number above 2. *)
Theorem miller_rabin_base_cases (ws : list Z) (num : Z) :
  (num < 2 -> miller_rabin num ws = false) /\
  (num = 2 \/ num = 3 -> miller_rabin num ws = true) /\
  (2 < num -> num mod 2 = 0 -> miller_rabin num ws = false).
Proof.
  unfold miller_rabin, miller_rabin_fuel. repeat split.
  - intros H. apply Z.ltb_lt in H. rewrite H. reflexivity.
  - intros [-> | ->]; reflexivity.
  - intros H2 Hev.
    assert (E1 : (num <? 2) = false) by (apply Z.ltb_ge; lia).
    assert (E2 : ((num =? 2) || (num =? 3)) = false).
    { apply orb_false_iff. split; apply Z.eqb_neq; intros ->; [lia | ].
      discriminate Hev. }
    apply Z.eqb_eq in Hev. rewrite E1, E2, Hev. reflexivity.
Qed.

Lemma miller_rabin_base_cases_witness :
  miller_rabin 1 witnesses = false /\
  miller_rabin 3 witnesses = true /\
  miller_rabin 10 witnesses = false.
Proof.
  split; [ | split].
  - destruct (miller_rabin_base_cases witnesses 1) as (H & _ & _).
    apply H. lia.
  - destruct (miller_rabin_base_cases witnesses 3) as (_ & H & _).
    apply H. right. reflexivity.
  - destruct (miller_rabin_base_cases witnesses 10) as (_ & _ & H).
    apply H; [lia | reflexivity].
Defined.




(** ** Trial division decides primality *)

Lemma no_divisor_from_sound (fuel : nat) :
  forall n d, 0 < d -> no_divisor_from fuel n d = true ->
    forall j, 0 <= j -> (d + 2 * j) * (d + 2 * j) <= n ->
      n mod (d + 2 * j) <> 0.
Proof.
  induction fuel as [ | fuel IH]; intros n d Hd H j Hj Hsq; simpl in H.
  - apply Z.ltb_lt in H. nia.
  - destruct (n <? d * d) eqn:E1.
    + apply Z.ltb_lt in E1. nia.
    + destruct (n mod d =? 0) eqn:E2; [discriminate | ].
      apply Z.eqb_neq in E2.
      destruct (Z.eq_dec j 0) as [-> | Hj0].
      * replace (d + 2 * 0) with d by lia. exact E2.
      * replace (d + 2 * j) with ((d + 2) + 2 * (j - 1)) in * by lia.
        apply (IH n (d + 2)); [lia | exact H | lia | exact Hsq].
Qed.

Lemma no_divisor_from_complete (n : Z) (fuel : nat) :
  forall d, 1 < d ->
    n < (d + 2 * Z.of_nat fuel) * (d + 2 * Z.of_nat fuel) ->
    (forall k, 1 < k -> k * k <= n -> n mod k <> 0) ->
    no_divisor_from fuel n d = true.
Proof.
  induction fuel as [ | fuel IH]; intros d Hd Hn Hk; simpl.
  - apply Z.ltb_lt. simpl in Hn. replace (d + 0) with d in Hn by lia. lia.
  - destruct (n <? d * d) eqn:E1; [reflexivity | ].
    apply Z.ltb_ge in E1.
    destruct (n mod d =? 0) eqn:E2.
    + apply Z.eqb_eq in E2. exfalso. exact (Hk d Hd E1 E2).
    + apply IH; [lia | | exact Hk].
      replace (d + 2 + 2 * Z.of_nat fuel)
        with (d + 2 * Z.of_nat (S fuel)) by lia.
      exact Hn.
Qed.

Lemma prime_no_small_divisor (n : Z) :
  Z.prime n -> forall k, 1 < k -> k * k <= n -> n mod k <> 0.
Proof.
  intros Hp k Hk Hsq Hmod.
  destruct Hp as [_ Hp].
  apply (Hp k); [nia | ].
  apply Z.mod_divide; [lia | exact Hmod].
Qed.

Lemma trial_division_sound (fuel : nat) (n : Z) :
  trial_division fuel n = true -> Z.prime n.
Proof.
  unfold trial_division. intros H.
  destruct (n <? 2) eqn:E1; [discriminate | ]. apply Z.ltb_ge in E1.
  destruct (n <? 4) eqn:E2.
  { apply Z.ltb_lt in E2.
    assert (Hn : n = 2 \/ n = 3) by lia.
    destruct Hn as [-> | ->]; [exact Z.prime_2 | exact Z.prime_3]. }
  apply Z.ltb_ge in E2.
  destruct (n mod 2 =? 0) eqn:E3; [discriminate | ]. apply Z.eqb_neq in E3.
  split; [lia | ].
  intros m Hm [q Hq].
  assert (Hodd : forall k, (k | n) -> k mod 2 <> 0).
  { intros k [c Hc] Hk. apply E3.
    rewrite Hc, Z.mul_mod, Hk, Z.mul_0_r by lia. reflexivity. }
  assert (Hno : forall k, 1 < k -> k * k <= n -> (k | n) -> False).
  { intros k Hk1 Hk2 Hdiv.
    pose proof (Hodd k Hdiv) as Hko.
    pose proof (Z.mod_pos_bound k 2 ltac:(lia)) as Hb.
    pose proof (Z.div_mod k 2 ltac:(lia)) as Hdm.
    assert (Hj : 0 <= k / 2 - 1) by lia.
    pose proof (no_divisor_from_sound fuel n 3 ltac:(lia) H (k / 2 - 1) Hj)
      as Hs.
    replace (3 + 2 * (k / 2 - 1)) with k in Hs by lia.
    apply (Hs Hk2). apply Z.mod_divide; [lia | exact Hdiv]. }
  assert (Hq1 : 1 < q) by nia.
  destruct (Z_le_gt_dec (m * m) n) as [Hle | Hgt].
  - apply (Hno m); [lia | exact Hle | ]. exists q. exact Hq.
  - apply (Hno q); [exact Hq1 | nia | ]. exists m. lia.
Qed.

Lemma trial_division_complete (fuel : nat) (n : Z) :
  Z.prime n ->
  n < (3 + 2 * Z.of_nat fuel) * (3 + 2 * Z.of_nat fuel) ->
  trial_division fuel n = true.
Proof.
  intros Hp Hn. unfold trial_division.
  pose proof (Z.prime_ge_2 n Hp) as H2.
  assert (E1 : (n <? 2) = false) by (apply Z.ltb_ge; lia). rewrite E1.
  destruct (n <? 4) eqn:E2; [reflexivity | ]. apply Z.ltb_ge in E2.
  pose proof (prime_no_small_divisor n Hp) as Hk.
  destruct (n mod 2 =? 0) eqn:E3.
  - apply Z.eqb_eq in E3. exfalso. apply (Hk 2); [lia | lia | exact E3].
  - apply no_divisor_from_complete; [lia | exact Hn | exact Hk].
Qed.

(** Trial division with enough fuel is exactly primality. *)
Lemma trial_division_prime (fuel : nat) (n : Z) :
  n < (3 + 2 * Z.of_nat fuel) * (3 + 2 * Z.of_nat fuel) ->
  trial_division fuel n = true <-> Z.prime n.
Proof.
  intros Hn. split.
  - apply trial_division_sound.
  - intros Hp. apply trial_division_complete; assumption.
Qed.

(** ** The machine-integer computations agree with the oracle *)

Section FastCorrect.

Local Abbreviation phi := Uint63.to_Z.

Lemma wB_value : wB = 9223372036854775808.
Proof. reflexivity. Qed.

Lemma eqb_phi (x y : int) : (x =? y)%uint63 = (phi x =? phi y).
Proof.
  destruct (Uint63.eqbP x y) as [H | H]; symmetry;
    [apply Z.eqb_eq | apply Z.eqb_neq]; exact H.
Qed.

Lemma ltb_phi (x y : int) : (x <? y)%uint63 = (phi x <? phi y).
Proof.
  destruct (Uint63.ltbP x y) as [H | H]; symmetry;
    [apply Z.ltb_lt | apply Z.ltb_ge]; lia.
Qed.

Lemma leb_phi (x y : int) : (x <=? y)%uint63 = (phi x <=? phi y).
Proof.
  destruct (Uint63.lebP x y) as [H | H]; symmetry;
    [apply Z.leb_le | apply Z.leb_gt]; lia.
Qed.

Lemma phi_of_Z (z : Z) : 0 <= z <= 2 ^ 31 -> phi (of_Z z) = z.
Proof.
  intros H. rewrite Uint63.of_Z_spec. apply Z.mod_small.
  rewrite wB_value. lia.
Qed.

Lemma phi_pred (x : int) : 0 < phi x -> phi (x - 1)%uint63 = phi x - 1.
Proof.
  intros H. rewrite Uint63.sub_spec. change (phi 1%uint63) with 1.
  apply Z.mod_small. pose proof (Uint63.to_Z_bounded x). lia.
Qed.

Lemma pow_pos_range (a : Z) (e : positive) (m : Z) :
  0 < m -> 0 <= Py.pow_pos a e m < m.
Proof.
  intros Hm. destruct e; simpl; apply Z.mod_pos_bound; exact Hm.
Qed.

Lemma pow_range (a e m : Z) : 1 < m -> 0 <= Py.pow a e m < m.
Proof.
  intros Hm. destruct e as [ | p | p]; simpl.
  - apply Z.mod_pos_bound. lia.
  - apply pow_pos_range. lia.
  - lia.
Qed.

Lemma mul_small (x y m : Z) :
  0 <= x < m -> 0 <= y < m -> m <= 2 ^ 31 -> (x * y) mod wB = x * y.
Proof.
  intros Hx Hy Hm. apply Z.mod_small. rewrite wB_value.
  assert (x * y <= 2 ^ 31 * 2 ^ 31) by nia. lia.
Qed.

Lemma fast_pow_pos (a : int) (e : positive) (m : int) :
  0 < phi m <= 2 ^ 31 -> phi a < phi m ->
  phi (Fast.pow_pos a e m) = Py.pow_pos (phi a) e (phi m).
Proof.
  intros Hm Ha. pose proof (Uint63.to_Z_bounded a) as Hab.
  induction e as [e IH | e IH | ]; cbn [Fast.pow_pos Py.pow_pos].
  - pose proof (pow_pos_range (phi a) e (phi m) ltac:(lia)) as Hr.
    set (h := Py.pow_pos (phi a) e (phi m)) in *.
    pose proof (Z.mod_pos_bound (h * h) (phi m) ltac:(lia)) as Hr2.
    rewrite Uint63.mod_spec, Uint63.mul_spec, Uint63.mod_spec,
      Uint63.mul_spec, IH.
    rewrite (mul_small h h (phi m)) by lia.
    rewrite (mul_small _ (phi a) (phi m)) by lia.
    reflexivity.
  - pose proof (pow_pos_range (phi a) e (phi m) ltac:(lia)) as Hr.
    rewrite Uint63.mod_spec, Uint63.mul_spec, IH.
    rewrite (mul_small _ _ (phi m)) by lia. reflexivity.
  - apply Uint63.mod_spec.
Qed.

Lemma fast_pow (a : int) (e : Z) (m : int) :
  0 < phi m <= 2 ^ 31 -> phi a < phi m ->
  phi (Fast.pow a e m) = Py.pow (phi a) e (phi m).
Proof.
  intros Hm Ha. destruct e as [ | p | p]; cbn [Fast.pow Py.pow].
  - apply Uint63.mod_spec.
  - apply fast_pow_pos; assumption.
  - reflexivity.
Qed.

Lemma fast_square_loop (k : nat) (num : int) :
  1 < phi num <= 2 ^ 31 ->
  forall x, phi x < phi num ->
    Fast.square_loop k num x = square_loop k (phi num) (phi x).
Proof.
  intros Hn. induction k as [ | k IH]; intros x Hx;
    cbn [Fast.square_loop square_loop]; [reflexivity | ].
  rewrite eqb_phi, phi_pred, fast_pow by lia.
  pose proof (pow_range (phi x) 2 (phi num) ltac:(lia)) as Hr.
  destruct (Py.pow (phi x) 2 (phi num) =? phi num - 1); [reflexivity | ].
  rewrite IH by (rewrite fast_pow by lia; lia).
  rewrite fast_pow by lia. reflexivity.
Qed.

Lemma fast_witness_loop (num r d : Z) (ws : list Z) :
  1 < num <= 2 ^ 31 -> small_witnesses ws ->
  Fast.witness_loop (of_Z num) r d (map of_Z ws) = witness_loop num r d ws.
Proof.
  intros Hn Hws.
  assert (Hphi : phi (of_Z num) = num) by (apply phi_of_Z; lia).
  induction Hws as [ | a ws Ha Hws IH];
    cbn [map Fast.witness_loop witness_loop]; [reflexivity | ].
  rewrite leb_phi, Hphi, (phi_of_Z a) by lia.
  rewrite Z.geb_leb.
  destruct (num <=? a) eqn:E; [exact IH | ].
  apply Z.leb_gt in E.
  assert (Hpow : phi (Fast.pow (of_Z a) d (of_Z num)) = Py.pow a d num).
  { rewrite fast_pow, Hphi, (phi_of_Z a) by (rewrite ?Hphi, ?phi_of_Z; lia).
    reflexivity. }
  rewrite !eqb_phi, phi_pred, Hpow, Hphi by lia.
  change (phi 1%uint63) with 1.
  destruct ((Py.pow a d num =? 1) || (Py.pow a d num =? num - 1));
    [exact IH | ].
  pose proof (pow_range a d num ltac:(lia)) as Hr.
  rewrite fast_square_loop, Hpow, Hphi, IH by (rewrite ?Hpow, ?Hphi; lia).
  reflexivity.
Qed.

Lemma fast_miller_rabin (num : Z) (ws : list Z) :
  num <= 2 ^ 31 -> small_witnesses ws ->
  Fast.miller_rabin num ws = miller_rabin num ws.
Proof.
  intros Hn Hws. unfold Fast.miller_rabin, miller_rabin, miller_rabin_fuel.
  destruct (num <? 2) eqn:E1; [reflexivity | ]. apply Z.ltb_ge in E1.
  destruct ((num =? 2) || (num =? 3)); [reflexivity | ].
  destruct (num mod 2 =? 0); [reflexivity | ].
  destruct (factor_loop (factor_fuel num) 0 (num - 1)) as [[r d] | ];
    [ | reflexivity].
  apply fast_witness_loop; [lia | exact Hws].
Qed.

Lemma fast_no_divisor_from (fuel : nat) (n : int) :
  forall d, 0 < phi d -> phi d + 2 * Z.of_nat fuel < 2 ^ 31 ->
    Fast.no_divisor_from fuel n d = no_divisor_from fuel (phi n) (phi d).
Proof.
  induction fuel as [ | fuel IH]; intros d Hd Hf;
    cbn [Fast.no_divisor_from no_divisor_from];
    rewrite ltb_phi, Uint63.mul_spec, (mul_small _ _ (2 ^ 31)) by lia;
    [reflexivity | ].
  destruct (phi n <? phi d * phi d); [reflexivity | ].
  rewrite eqb_phi, Uint63.mod_spec. change (phi 0%uint63) with 0.
  destruct (phi n mod phi d =? 0); [reflexivity | ].
  assert (Hd2 : phi (d + 2)%uint63 = phi d + 2).
  { rewrite Uint63.add_spec. change (phi 2%uint63) with 2.
    apply Z.mod_small. rewrite wB_value. lia. }
  rewrite IH, Hd2 by (rewrite Hd2; lia). reflexivity.
Qed.

Lemma fast_trial_division (fuel : nat) (n : Z) :
  n <= 2 ^ 31 -> 3 + 2 * Z.of_nat fuel < 2 ^ 31 ->
  Fast.trial_division fuel n = trial_division fuel n.
Proof.
  intros Hn Hf. unfold Fast.trial_division, trial_division.
  destruct (n <? 2) eqn:E1; [reflexivity | ]. apply Z.ltb_ge in E1.
  destruct (n <? 4); [reflexivity | ].
  destruct (n mod 2 =? 0); [reflexivity | ].
  rewrite fast_no_divisor_from, phi_of_Z by (change (phi 3%uint63) with 3; lia).
  reflexivity.
Qed.

End FastCorrect.

Lemma agree_range_spec (fuel k : nat) :
  forall n, Fast.agree_range fuel k n = true ->
    forall i, n <= i < n + Z.of_nat k ->
      Fast.miller_rabin i witnesses = Fast.trial_division fuel i.
Proof.
  induction k as [ | k IH]; intros n H i Hi; [lia | ].
  cbn [Fast.agree_range] in H.
  destruct (Bool.eqb (Fast.miller_rabin n witnesses)
                     (Fast.trial_division fuel n)) eqn:E; [ | discriminate].
  destruct (Z.eq_dec i n) as [-> | Hne].
  - apply Bool.eqb_prop. exact E.
  - apply (IH (n + 1) H). lia.
Qed.

(** The oracle and trial division give the same answer on each of
    2, ..., 1000000 (by evaluation). *)
Lemma oracle_agrees_upto_million :
  Fast.agree_range 500 (Z.to_nat 999999) 2 = true.
Proof. vm_cast_no_check (eq_refl true). Qed.

Lemma small_witnesses_fixed : small_witnesses witnesses.
Proof. unfold small_witnesses, witnesses. repeat constructor; lia. Qed.

(** C5: on every integer from 2 to 10^6 the oracle with the fixed witness
    list answers true exactly on the primes. *)
Theorem miller_rabin_exact_upto_million (num : Z) :
  2 <= num <= 10 ^ 6 ->
  miller_rabin num witnesses = true <-> Z.prime num.
Proof.
  intros Hn.
  rewrite <- (fast_miller_rabin num witnesses) by
    (try exact small_witnesses_fixed; lia).
  rewrite (agree_range_spec _ _ _ oracle_agrees_upto_million num) by lia.
  rewrite fast_trial_division by lia.
  apply trial_division_prime. lia.
Qed.

Lemma miller_rabin_exact_upto_million_witness :
  2 <= 7919 <= 10 ^ 6 /\
  (miller_rabin 7919 witnesses = true <-> Z.prime 7919).
Proof.
  split; [lia | apply (miller_rabin_exact_upto_million 7919); lia].
Defined.

(** ** Invalid indices *)

Lemma location_approximator_invalid (n : Z) :
  n < 1 -> location_approximator n = Py.Raise Py.ValueError.
Proof.
  intros Hn. unfold location_approximator.
  assert (E1 : (n =? 1) = false) by (apply Z.eqb_neq; lia).
  assert (E2 : (n =? 2) = false) by (apply Z.eqb_neq; lia).
  assert (E3 : (n =? 3) = false) by (apply Z.eqb_neq; lia).
  rewrite E1, E2, E3. unfold unadjusted_bounds, Py.math_log_int.
  assert (E0 : (n <=? 0) = true) by (apply Z.leb_le; lia).
  rewrite E0. reflexivity.
Qed.

(** C7: for an index below 1 [nth_prime] raises [ValueError], Python's
    invalid-argument exception, before any candidate is examined: the
    exception comes from [math.log(n)] in the bound estimator and leaves
    [nth_prime] whatever fuel the loops are given, even none. *)
Theorem nth_prime_invalid_index (fuel : nat) (n : Z) :
  n < 1 -> nth_prime fuel n = Some (Py.Raise Py.ValueError).
Proof.
  intros Hn. unfold nth_prime.
  assert (E1 : (n =? 1) = false) by (apply Z.eqb_neq; lia).
  rewrite E1, (location_approximator_invalid n Hn). reflexivity.
Qed.

Lemma nth_prime_invalid_index_witness :
  0 < 1 /\ nth_prime 0 0 = Some (Py.Raise Py.ValueError).
Proof. split; [lia | apply (nth_prime_invalid_index 0 0); lia]. Defined.

(** ** More fuel does not change the outcome *)

Lemma count_below_more (fuel : nat) :
  forall lower_bound prime_count candidate v,
    count_below fuel lower_bound prime_count candidate = Some v ->
    forall fuel', (fuel <= fuel')%nat ->
      count_below fuel' lower_bound prime_count candidate = Some v.
Proof.
  induction fuel as [ | fuel IH]; intros lb pc c v H fuel' Hle;
    [discriminate | ].
  destruct fuel' as [ | fuel']; [lia | ].
  cbn [count_below] in *. destruct (c <? lb); [ | exact H].
  apply (IH _ _ _ _ H). lia.
Qed.

Lemma bounded_search_more (fuel : nat) :
  forall n upper_bound prime_count candidate v,
    bounded_search fuel n upper_bound prime_count candidate = Some v ->
    forall fuel', (fuel <= fuel')%nat ->
      bounded_search fuel' n upper_bound prime_count candidate = Some v.
Proof.
  induction fuel as [ | fuel IH]; intros n ub pc c v H fuel' Hle;
    [discriminate | ].
  destruct fuel' as [ | fuel']; [lia | ].
  cbn [bounded_search] in *.
  destruct ((pc <? n) && (c <=? ub)); [ | exact H].
  destruct ((c =? 2) || ((c >? 2) && miller_rabin c witnesses)).
  - destruct (pc + 1 =? n); [exact H | ]. apply (IH _ _ _ _ _ H). lia.
  - apply (IH _ _ _ _ _ H). lia.
Qed.

Lemma fallback_search_more (fuel : nat) :
  forall n prime_count candidate v,
    fallback_search fuel n prime_count candidate = Some v ->
    forall fuel', (fuel <= fuel')%nat ->
      fallback_search fuel' n prime_count candidate = Some v.
Proof.
  induction fuel as [ | fuel IH]; intros n pc c v H fuel' Hle;
    [discriminate | ].
  destruct fuel' as [ | fuel']; [lia | ].
  cbn [fallback_search] in *.
  destruct (pc <? n); [ | exact H].
  destruct (miller_rabin c witnesses).
  - destruct (pc + 1 =? n); [exact H | ]. apply (IH _ _ _ _ H). lia.
  - apply (IH _ _ _ _ H). lia.
Qed.

Lemma nth_prime_more (fuel fuel' : nat) (n : Z) (r : Py.res Z) :
  nth_prime fuel n = Some r -> (fuel <= fuel')%nat ->
  nth_prime fuel' n = Some r.
Proof.
  unfold nth_prime. intros H Hle.
  destruct (n =? 1); [exact H | ].
  destruct (location_approximator n) as [[lb ub] | e]; [ | exact H].
  destruct (count_below fuel lb 1 3) as [pc | ] eqn:E1; [ | discriminate].
  rewrite (count_below_more _ _ _ _ _ E1 fuel' Hle).
  destruct (bounded_search fuel n ub pc _) as [x | ] eqn:E2; [ | discriminate].
  rewrite (bounded_search_more _ _ _ _ _ _ E2 fuel' Hle).
  destruct x as [v | pc' c']; [exact H | ].
  destruct (fallback_search fuel n pc' c') as [v | ] eqn:E3; [ | discriminate].
  rewrite (fallback_search_more _ _ _ _ _ E3 fuel' Hle). exact H.
Qed.

(** ** The double count of the prime 2 *)

(** C1: at [n = 4] the bound estimator yields [(2, 30)]; the count starts
    at 1 for the prime 2 and the bounded search, starting from candidate
    2, counts it again.  [nth_prime] returns 5, and the oracle confirms
    only 3 integers in [2, 5]; the fourth confirmed integer is 7. *)
Theorem nth_prime_4_returns_5 :
  location_approximator 4 = Py.OK (2, 30) /\
  nth_prime 10 4 = Some (Py.OK 5) /\
  count_confirmed 5 = 3 /\
  count_confirmed 7 = 4.
Proof. vm_compute. repeat split; reflexivity. Qed.

(** C2: the same double count makes the sequence stall,
    [nth_prime(3) = nth_prime(4) = 5]. *)
Theorem nth_prime_3_equals_nth_prime_4 :
  nth_prime 10 3 = Some (Py.OK 5) /\ nth_prime 10 4 = Some (Py.OK 5).
Proof. vm_compute. split; reflexivity. Qed.

(** ** Which formula the bound estimator uses *)

Ltac step_bind :=
  match goal with
  | |- context [Py.bind ?c _] =>
      lazymatch c with
      | Py.bind _ _ => fail
      | _ => destruct c; cbn [Py.bind]
      end
  end.

(** A double that is neither negative nor infinite converts to an
    integer, and truncation gives its floor. *)
Lemma int_floor_finite (x : float) :
  (0 <=? x)%float = true -> (x <? infinity)%float = true ->
  exists z, Py.int x = Py.OK z /\ Py.floor x = Py.OK z.
Proof.
  intros H0 Hi. rewrite FloatAxioms.leb_spec in H0.
  rewrite FloatAxioms.ltb_spec in Hi. unfold Py.int, Py.floor.
  destruct (Prim2SF x) as [s | s | | s m e].
  - exists 0. split; reflexivity.
  - destruct s; vm_compute in H0, Hi; discriminate.
  - vm_compute in H0. discriminate.
  - destruct s; [vm_compute in H0; discriminate | ].
    eexists. split; reflexivity.
Qed.

(** *** The logarithm on primitive operations is [Py.libm_log] *)

Section FastLog.

Local Abbreviation phi := Uint63.to_Z.

Lemma digits2_pos_size (p : positive) : digits2_pos p = Pos.size p.
Proof. induction p; simpl; congruence. Qed.

Lemma Zdigits2_53 (m : Z) : 2 ^ 52 <= m < 2 ^ 53 -> Zdigits2 m = 53.
Proof.
  intros H. destruct m as [ | p | p]; try lia.
  cbn [Zdigits2]. rewrite digits2_pos_size.
  assert (L : Z.log2 (Z.pos p) = 52) by (apply Z.log2_unique; lia).
  destruct p as [p | p | ]; cbn [Z.log2 Pos.size] in *; lia.
Qed.

(** A 53-bit mantissa above the least exponent is already in place. *)
Lemma shr_fexp_normal (m e : Z) :
  2 ^ 52 <= m < 2 ^ 53 -> -1074 <= e ->
  shr_fexp prec emax m e loc_Exact =
  ({| shr_m := m; shr_r := false; shr_s := false |}, e).
Proof.
  intros Hm He. unfold shr_fexp. rewrite (Zdigits2_53 m Hm).
  unfold fexp. change (SpecFloat.emin prec emax) with (-1074).
  change prec with 53.
  replace (Z.max (53 + e - 53) (-1074) - e) with 0 by lia.
  reflexivity.
Qed.

(** The mantissa and exponent of a positive normal double. *)
Lemma Prim2SF_normal (x r : float) (se : int) :
  is_nan x = false -> PrimFloat.is_zero x = false ->
  is_infinity x = false -> get_sign x = false ->
  frshiftexp x = (r, se) ->
  2 ^ 52 <= phi (normfr_mantissa r) < 2 ^ 53 -> 1080 <= phi se ->
  Prim2SF x =
  S754_finite false (Z.to_pos (phi (normfr_mantissa r))) (phi se - 2154).
Proof.
  intros Hnan Hz Hinf Hs Hfr Hm Hse. unfold Prim2SF, Z.frexp.
  rewrite Hnan, Hz, Hinf, Hs, Hfr.
  rewrite shr_fexp_normal
    by (change shift with 2101; change prec with 53; lia).
  cbn [shr_m].
  destruct (phi (normfr_mantissa r)) as [ | p | p]; try lia.
  cbn [Z.to_pos]. f_equal. change shift with 2101. change prec with 53. lia.
Qed.

Lemma float_of_Z_phi (i : int) : Py.float_of_Z (phi i) = of_uint63 i.
Proof.
  unfold Py.float_of_Z. rewrite <- of_uint63_spec. apply SF2Prim_Prim2SF.
Qed.

Lemma libm_log_kernel (x : float) (p : positive) (e : Z) :
  Prim2SF x = S754_finite false p e -> 2 ^ 52 <= Z.pos p < 2 ^ 53 ->
  let hx := Z.shiftr (Z.pos p - 2 ^ 52) 32 in
  let i := if 0x100000 <=? hx + 0x95f64 then 1 else 0 in
  let k := e + 52 + i in
  Py.libm_log x =
  Fast.log_kernel ((hx + 2) mod 0x100000 <? 3)
    ((0x6147a <=? hx) && (hx <=? 0x6b851)) (k =? 0)
    (SF2Prim (S754_finite false p (- 52 - i))) (Py.float_of_Z k).
Proof.
  intros H Hp. unfold Py.libm_log. rewrite H.
  replace (Z.log2 (Z.pos p)) with 52 by (symmetry; apply Z.log2_unique; lia).
  change (52 - 52) with 0. rewrite Z.shiftl_0_r, Z.sub_0_r.
  cbn [Z.to_pos]. reflexivity.
Qed.

Lemma SF2Prim_scaled (mant : int) (p : positive) (b : bool) :
  phi mant = Z.pos p ->
  SF2Prim (S754_finite false p (- 52 - (if b then 1 else 0))) =
  ldshiftexp (of_uint63 mant) (2049 - (if b then 1 else 0))%uint63.
Proof.
  intros Hp. unfold SF2Prim. rewrite <- Hp, Uint63.of_to_Z.
  destruct b; reflexivity.
Qed.

Lemma fast_libm_log (x y : float) :
  Fast.libm_log x = Some y -> Py.libm_log x = y.
Proof.
  unfold Fast.libm_log.
  destruct (is_nan x) eqn:Hnan; [discriminate | ].
  destruct (PrimFloat.is_zero x) eqn:Hz; [discriminate | ].
  destruct (is_infinity x) eqn:Hinf; [discriminate | ].
  destruct (get_sign x) eqn:Hs; [discriminate | ].
  cbn [orb]. destruct (frshiftexp x) as [r se] eqn:Hfr.
  set (mant := normfr_mantissa r).
  destruct (4503599627370496 <=? mant)%uint63 eqn:H1; [ | discriminate].
  destruct (mant <? 9007199254740992)%uint63 eqn:H2; [ | discriminate].
  destruct (2102 <=? se)%uint63 eqn:H3; [ | discriminate].
  destruct (se <=? 3125)%uint63 eqn:H4; [ | discriminate].
  cbn [andb]. rewrite leb_phi in H1, H3, H4. rewrite ltb_phi in H2.
  change (phi 4503599627370496) with (2 ^ 52) in H1.
  change (phi 9007199254740992) with (2 ^ 53) in H2.
  change (phi 2102) with 2102 in H3. change (phi 3125) with 3125 in H4.
  apply Z.leb_le in H1, H3, H4. apply Z.ltb_lt in H2.
  intros H. injection H as <-.
  pose proof (Prim2SF_normal x r se Hnan Hz Hinf Hs Hfr
                ltac:(fold mant; lia) ltac:(lia)) as HP.
  fold mant in HP.
  destruct (phi mant) as [ | p | p] eqn:Hp; try lia.
  cbn [Z.to_pos] in HP.
  rewrite (libm_log_kernel x p _ HP ltac:(lia)).
  cbv zeta.
  set (hx := Z.shiftr (Z.pos p - 2 ^ 52) 32).
  set (hx' := ((mant - 4503599627370496) >> 32)%uint63).
  assert (Hhx : phi hx' = hx).
  { unfold hx', hx. rewrite Uint63.lsr_spec, Uint63.sub_spec, Hp.
    change (phi 4503599627370496) with (2 ^ 52).
    change (phi 32) with 32.
    rewrite Z.mod_small by (rewrite wB_value; lia).
    symmetry. apply Z.shiftr_div_pow2. lia. }
  assert (Rhx : 0 <= hx < 2 ^ 20).
  { unfold hx. rewrite Z.shiftr_div_pow2 by lia. split.
    - apply Z.div_pos; lia.
    - apply Z.div_lt_upper_bound; lia. }
  assert (Hc : (0x100000 <=? hx' + 0x95f64)%uint63
               = (0x100000 <=? hx + 0x95f64)).
  { rewrite leb_phi, Uint63.add_spec, Hhx.
    change (phi 0x100000) with 0x100000.
    change (phi 0x95f64) with 0x95f64.
    rewrite Z.mod_small by (rewrite wB_value; lia). reflexivity. }
  rewrite Hc.
  set (b := 0x100000 <=? hx + 0x95f64).
  set (i' := (if b then 1 else 0)%uint63).
  set (i := if b then 1 else 0).
  assert (Hi : phi i' = i) by (unfold i', i; destruct b; reflexivity).
  assert (Ri : 0 <= i <= 1) by (unfold i; destruct b; lia).
  set (k := phi se - 2154 + 52 + i).
  set (k' := (se - 2102 + i')%uint63).
  assert (Hk : phi k' = k).
  { unfold k', k. rewrite Uint63.add_spec, Uint63.sub_spec, Hi.
    change (phi 2102) with 2102. rewrite wB_value.
    rewrite (Z.mod_small (phi se - 2102)) by lia.
    rewrite Z.mod_small by lia. lia. }
  assert (Hn : ((hx' + 2) mod 0x100000 <? 3)%uint63
               = ((hx + 2) mod 0x100000 <? 3)).
  { rewrite ltb_phi, Uint63.mod_spec, Uint63.add_spec, Hhx.
    change (phi 0x100000) with 0x100000. change (phi 2) with 2.
    change (phi 3) with 3.
    rewrite (Z.mod_small (hx + 2)) by (rewrite wB_value; lia).
    reflexivity. }
  assert (Hm : ((0x6147a <=? hx') && (hx' <=? 0x6b851))%uint63
               = ((0x6147a <=? hx) && (hx <=? 0x6b851))).
  { rewrite !leb_phi, Hhx. reflexivity. }
  assert (Hk0 : (k' =? 0)%uint63 = (k =? 0)).
  { rewrite eqb_phi, Hk. reflexivity. }
  rewrite Hn, Hm, Hk0, <- Hk, float_of_Z_phi.
  unfold i. rewrite (SF2Prim_scaled mant p b Hp). reflexivity.
Qed.

(** Where [Fast.rosser_ok] answers true, the formula of the
    specification returns a pair, the same with truncation and with
    floor. *)
Lemma fast_rosser_ok (i : int) :
  Fast.rosser_ok i = true -> 0 < phi i ->
  exists lower upper,
    rosser_schoenfeld_formula Py.int (phi i) = Py.OK (lower, upper) /\
    rosser_schoenfeld_formula Py.floor (phi i) = Py.OK (lower, upper).
Proof.
  unfold Fast.rosser_ok. cbv zeta. intros H Hpos.
  destruct (is_infinity (of_uint63 i)) eqn:A1; [discriminate | ].
  destruct (is_nan (of_uint63 i)) eqn:A2; [discriminate | ].
  destruct (0 <? of_uint63 i)%float eqn:A3; [ | discriminate].
  cbn [negb andb] in H.
  destruct (Fast.libm_log (of_uint63 i)) as [ln_n | ] eqn:L1;
    [ | discriminate].
  destruct (is_nan ln_n) eqn:B1; [discriminate | ].
  destruct (0 <? ln_n)%float eqn:B2; [ | discriminate].
  destruct (is_infinity ln_n) eqn:B3; [discriminate | ].
  cbn [negb andb] in H.
  destruct (Fast.libm_log ln_n) as [ln_ln_n | ] eqn:L2; [ | discriminate].
  apply andb_prop in H. destruct H as [H Hy2].
  apply andb_prop in H. destruct H as [H Hy1].
  apply andb_prop in H. destruct H as [Hx1 Hx2].
  destruct (int_floor_finite _ Hx1 Hx2) as (lower & Il & Fl).
  destruct (int_floor_finite _ Hy1 Hy2) as (upper & Iu & Fu).
  exists lower, (upper + 1).
  assert (E0 : (phi i <=? 0) = false) by (apply Z.leb_gt; exact Hpos).
  unfold rosser_schoenfeld_formula, Py.math_log_int, Py.mul_int, Py.to_float.
  rewrite E0, float_of_Z_phi, A1. unfold Py.math_log.
  rewrite A2, A3, A1, (fast_libm_log _ _ L1). cbn [Py.bind].
  rewrite B1, B2, B3, (fast_libm_log _ _ L2). cbn [Py.bind].
  rewrite Il, Iu, Fl, Fu. cbn [Py.bind]. split; reflexivity.
Qed.

End FastLog.

Lemma rosser_range_spec (k : nat) :
  forall n, Fast.rosser_range k n = true ->
    forall j, n <= j < n + Z.of_nat k -> Fast.rosser_ok (of_Z j) = true.
Proof.
  induction k as [ | k IH]; intros n H j Hj; [lia | ].
  cbn [Fast.rosser_range] in H.
  destruct (Fast.rosser_ok (of_Z n)) eqn:E; [ | discriminate].
  destruct (Z.eq_dec j n) as [-> | Hne]; [exact E | ].
  apply (IH (n + 1) H). lia.
Qed.

(** Both logarithms succeed and both products are doubles that are
    neither negative nor infinite at each of 6, ..., 688382 (by
    evaluation). *)
Lemma rosser_range_checked :
  Fast.rosser_range (Z.to_nat 688377) 6 = true.
Proof. vm_cast_no_check (eq_refl true). Qed.

(** On the whole range the formula of the specification returns a pair,
    and the truncation of the source gives the floors it asks for. *)
Lemma rosser_schoenfeld_int_floor (n : Z) :
  6 <= n < 688383 ->
  exists lower upper,
    rosser_schoenfeld_formula Py.int n = Py.OK (lower, upper) /\
    rosser_schoenfeld_formula Py.floor n = Py.OK (lower, upper).
Proof.
  intros Hn.
  pose proof (rosser_range_spec _ _ rosser_range_checked n ltac:(lia)) as H.
  apply fast_rosser_ok in H; rewrite phi_of_Z in * by lia; [exact H | lia].
Qed.

(** The branch taken for [6 <= n < 688383] is lines 44-48 alone. *)
Lemma unadjusted_bounds_rosser_int (n : Z) :
  6 <= n < 688383 ->
  unadjusted_bounds n = rosser_schoenfeld_formula Py.int n.
Proof.
  intros Hn. unfold unadjusted_bounds, rosser_schoenfeld_formula,
    rosser_schoenfeld.
  assert (E1 : (n >=? 6) = true) by (rewrite Z.geb_leb; apply Z.leb_le; lia).
  assert (E2 : (n >=? 688383) = false)
    by (rewrite Z.geb_leb; apply Z.leb_gt; lia).
  assert (E3 : (n <? 6) = false) by (apply Z.ltb_ge; lia).
  rewrite E1, E2, E3.
  repeat (step_bind; [ | reflexivity]). reflexivity.
Qed.

(** C3 as stated fails at [n = 5]: the source answers [(2, 30)] where the
    formula of the specification gives [(5, 11)]. *)
Lemma rosser_schoenfeld_not_used_at_5 :
  4 <= 5 < 688383 /\
  unadjusted_bounds 5 = Py.OK (2, 30) /\
  rosser_schoenfeld_formula Py.floor 5 = Py.OK (5, 11) /\
  unadjusted_bounds 5 <> rosser_schoenfeld_formula Py.floor 5.
Proof.
  assert (H1 : unadjusted_bounds 5 = Py.OK (2, 30))
    by (vm_compute; reflexivity).
  assert (H2 : rosser_schoenfeld_formula Py.floor 5 = Py.OK (5, 11))
    by (vm_compute; reflexivity).
  split; [lia | split; [exact H1 | split; [exact H2 | ]]].
  rewrite H1, H2. discriminate.
Qed.

(** C3, amended: for every [6 <= n < 688383] the estimator returns, and
    the pair before the odd-start adjustment is the Rosser-Schoenfeld pair
    of the specification, [lower = floor(n (ln n + ln ln n - 1))] and
    [upper = floor(n (ln n + ln ln n)) + 1] in double precision; the
    returned pair is that one after the adjustment.  For [n = 4] and
    [n = 5] the pair is [(2, 30)]. *)
Theorem unadjusted_bounds_rosser_schoenfeld (n : Z) :
  (6 <= n < 688383 ->
     exists lower upper,
       rosser_schoenfeld_formula Py.floor n = Py.OK (lower, upper) /\
       unadjusted_bounds n = Py.OK (lower, upper) /\
       location_approximator n = Py.OK (odd_start (lower, upper))) /\
  (4 <= n < 6 -> unadjusted_bounds n = Py.OK (2, 30)).
Proof.
  split.
  - intros Hn.
    destruct (rosser_schoenfeld_int_floor n Hn) as (lower & upper & Hi & Hf).
    exists lower, upper. rewrite <- (unadjusted_bounds_rosser_int n Hn) in Hi.
    split; [exact Hf | split; [exact Hi | ]].
    unfold location_approximator.
    assert (E1 : (n =? 1) = false) by (apply Z.eqb_neq; lia).
    assert (E2 : (n =? 2) = false) by (apply Z.eqb_neq; lia).
    assert (E3 : (n =? 3) = false) by (apply Z.eqb_neq; lia).
    rewrite E1, E2, E3, Hi. reflexivity.
  - intros Hn. assert (H : n = 4 \/ n = 5) by lia.
    destruct H as [-> | ->]; vm_compute; reflexivity.
Qed.

Lemma unadjusted_bounds_rosser_schoenfeld_witness :
  (6 <= 1000 < 688383 /\
   exists lower upper,
     rosser_schoenfeld_formula Py.floor 1000 = Py.OK (lower, upper) /\
     unadjusted_bounds 1000 = Py.OK (lower, upper) /\
     location_approximator 1000 = Py.OK (odd_start (lower, upper))) /\
  (4 <= 4 < 6 /\ unadjusted_bounds 4 = Py.OK (2, 30)).
Proof.
  destruct (unadjusted_bounds_rosser_schoenfeld 1000) as [H1 _].
  destruct (unadjusted_bounds_rosser_schoenfeld 4) as [_ H2].
  split; (split; [lia | ]); [apply H1 | apply H2]; lia.
Defined.

(** The formula at both ends of its range and at the scenario indices;
    here truncation and floor agree. *)
Example rosser_schoenfeld_values :
  unadjusted_bounds 6 = Py.OK (8, 15) /\
  rosser_schoenfeld_formula Py.floor 6 = Py.OK (8, 15) /\
  unadjusted_bounds 1000 = Py.OK (7840, 8841) /\
  rosser_schoenfeld_formula Py.floor 1000 = Py.OK (7840, 8841) /\
  unadjusted_bounds 688382 = Py.OK (10353603, 11041986) /\
  rosser_schoenfeld_formula Py.floor 688382 = Py.OK (10353603, 11041986).
Proof. vm_compute. repeat split; reflexivity. Qed.

(** ** The scenarios within reach of evaluation *)

Example nth_prime_small_scenarios :
  nth_prime 0 1 = Some (Py.OK 2) /\
  nth_prime 20 10 = Some (Py.OK 29) /\
  nth_prime 300 100 = Some (Py.OK 541) /\
  nth_prime 4000 1000 = Some (Py.OK 7919).
Proof. vm_compute. repeat split; reflexivity. Qed.

(** The bounds for the largest scenario index bracket the expected
    prime. *)
Example location_approximator_largest_scenario :
  location_approximator 431331120407
  = Py.OK (12562337630381, 12565739483518).
Proof. vm_compute. reflexivity. Qed.

(** ** The shape of the returned pair *)

(** The lower bound that leaves the estimator is never an even number
    above 2, whatever the floating-point formulas produced. *)
Lemma location_approximator_lower_not_even (n lower upper : Z) :
  location_approximator n = Py.OK (lower, upper) ->
  ~ (2 < lower /\ lower mod 2 = 0).
Proof.
  unfold location_approximator. intros H [Hgt Hev].
  destruct (n =? 1); [injection H as <- _; lia | ].
  destruct (n =? 2); [injection H as <- _; discriminate Hev | ].
  destruct (n =? 3); [injection H as <- _; discriminate Hev | ].
  destruct (unadjusted_bounds n) as [[lo up] | e]; [ | discriminate H].
  cbn [Py.bind odd_start] in H.
  destruct (lo >? 2) eqn:E1; cbn [andb] in H.
  - destruct (lo mod 2 =? 0) eqn:E2; injection H as <- _.
    + apply Z.eqb_eq in E2.
      rewrite <- Zplus_mod_idemp_l, E2 in Hev. discriminate Hev.
    + apply Z.eqb_neq in E2. contradiction.
  - injection H as <- _. rewrite Z.gtb_ltb in E1.
    apply Z.ltb_ge in E1. lia.
Qed.

(** The pairs for the indices that do not reach the floating-point
    formulas, and a few that do. *)
Example location_approximator_values :
  location_approximator 1 = Py.OK (2, 2) /\
  location_approximator 2 = Py.OK (3, 3) /\
  location_approximator 3 = Py.OK (5, 5) /\
  location_approximator 4 = Py.OK (2, 30) /\
  location_approximator 5 = Py.OK (2, 30) /\
  location_approximator 6 = Py.OK (9, 15) /\
  location_approximator 688382 = Py.OK (10353603, 11041986) /\
  location_approximator 688383 = Py.OK (10379535, 10401101).
Proof. vm_compute. repeat split; reflexivity. Qed.

(** ** The round trip when the search starts above 2

    When the lower bound is at least 3 and fewer than [n] confirmed
    integers lie below it, the value [nth_prime] returns is confirmed by
    the oracle and is the [n]-th confirmed integer. *)

Lemma miller_rabin_even (ws : list Z) (a : Z) :
  2 < a -> a mod 2 = 0 -> miller_rabin a ws = false.
Proof.
  intros Ha Hev. unfold miller_rabin, miller_rabin_fuel.
  assert (E1 : (a <? 2) = false) by (apply Z.ltb_ge; lia).
  assert (E2 : (a =? 2) = false) by (apply Z.eqb_neq; lia).
  assert (E3 : (a =? 3) = false).
  { apply Z.eqb_neq. intros ->. discriminate Hev. }
  apply Z.eqb_eq in Hev. rewrite E1, E2, E3, Hev. reflexivity.
Qed.

Lemma confirmed_even (a : Z) : 2 < a -> a mod 2 = 0 -> confirmed a = 0.
Proof.
  intros Ha Hev. unfold confirmed.
  rewrite (miller_rabin_even witnesses a Ha Hev). reflexivity.
Qed.

Lemma count_confirmed_from_snoc (k : nat) :
  forall q, count_confirmed_from (S k) q
            = count_confirmed_from k q + confirmed (q + Z.of_nat k).
Proof.
  induction k as [ | k IH]; intros q.
  - cbn [count_confirmed_from].
    replace (q + Z.of_nat 0) with q by lia. lia.
  - change (count_confirmed_from (S (S k)) q)
      with (confirmed q + count_confirmed_from (S k) (q + 1)).
    rewrite IH.
    change (count_confirmed_from (S k) q)
      with (confirmed q + count_confirmed_from k (q + 1)).
    replace (q + 1 + Z.of_nat k) with (q + Z.of_nat (S k)) by lia. lia.
Qed.

Lemma confirmed_between_last (a b : Z) :
  a <= b -> confirmed_between a (b + 1) = confirmed_between a b + confirmed b.
Proof.
  intros Hab. unfold confirmed_between.
  replace (Z.to_nat (b + 1 - a)) with (S (Z.to_nat (b - a))) by lia.
  rewrite count_confirmed_from_snoc.
  replace (a + Z.of_nat (Z.to_nat (b - a))) with b by lia. reflexivity.
Qed.

Lemma odd_succ_even (c : Z) : c mod 2 = 1 -> (c + 1) mod 2 = 0.
Proof.
  intros H. rewrite <- Zplus_mod_idemp_l, H. reflexivity.
Qed.

Lemma odd_plus_2 (c : Z) : c mod 2 = 1 -> (c + 2) mod 2 = 1.
Proof.
  intros H. rewrite <- Zplus_mod_idemp_l, H. reflexivity.
Qed.

(** Stepping an odd candidate by 2 skips an even number, which the
    oracle never confirms. *)
Lemma confirmed_between_odd_step (c : Z) :
  3 <= c -> c mod 2 = 1 ->
  confirmed_between 2 (c + 2) = confirmed_between 2 c + confirmed c.
Proof.
  intros Hc Hodd.
  replace (c + 2) with (c + 1 + 1) by lia.
  rewrite confirmed_between_last, confirmed_between_last by lia.
  rewrite (confirmed_even (c + 1))
    by (try apply odd_succ_even; try assumption; lia).
  lia.
Qed.

Lemma count_below_spec (fuel : nat) :
  forall lower_bound prime_count candidate v,
    3 <= candidate -> candidate mod 2 = 1 ->
    prime_count = confirmed_between 2 candidate ->
    count_below fuel lower_bound prime_count candidate = Some v ->
    v = confirmed_between 2 (Z.max candidate lower_bound).
Proof.
  induction fuel as [ | fuel IH]; intros lb pc c v Hc Hodd Hpc H;
    [discriminate | ].
  cbn [count_below] in H. destruct (c <? lb) eqn:E.
  - apply Z.ltb_lt in E.
    apply IH in H; [ | lia | apply odd_plus_2; exact Hodd | ].
    + rewrite H. destruct (Z.eq_dec lb (c + 1)) as [-> | Hne].
      * rewrite Z.max_l, (Z.max_r c) by lia.
        replace (c + 2) with (c + 1 + 1) by lia.
        rewrite confirmed_between_last by lia.
        rewrite (confirmed_even (c + 1))
          by (try apply odd_succ_even; try assumption; lia).
        lia.
      * rewrite !Z.max_r by lia. reflexivity.
    + rewrite confirmed_between_odd_step by assumption.
      unfold confirmed. rewrite Hpc.
      destruct (miller_rabin c witnesses); lia.
  - injection H as <-. apply Z.ltb_ge in E. rewrite Z.max_l by lia.
    exact Hpc.
Qed.

Lemma bounded_search_spec (fuel : nat) :
  forall n upper_bound prime_count candidate r,
    3 <= candidate -> candidate mod 2 = 1 ->
    prime_count = confirmed_between 2 candidate -> prime_count < n ->
    bounded_search fuel n upper_bound prime_count candidate = Some r ->
    exit_ok n r.
Proof.
  induction fuel as [ | fuel IH]; intros n ub pc c r Hc Hodd Hpc Hlt H;
    [discriminate | ].
  cbn [bounded_search] in H.
  destruct ((pc <? n) && (c <=? ub)).
  - assert (E2 : (c =? 2) = false) by (apply Z.eqb_neq; lia).
    assert (E3 : (c >? 2) = true) by (rewrite Z.gtb_ltb; apply Z.ltb_lt; lia).
    rewrite E2, E3 in H. cbn [orb andb] in H.
    pose proof (confirmed_between_odd_step c Hc Hodd) as Hstep.
    unfold confirmed in Hstep.
    destruct (miller_rabin c witnesses) eqn:Emr.
    + destruct (pc + 1 =? n) eqn:En.
      * injection H as <-. apply Z.eqb_eq in En. cbn [exit_ok].
        split; [exact Emr | ].
        unfold count_confirmed. rewrite confirmed_between_last by lia.
        unfold confirmed. rewrite Emr. lia.
      * apply Z.eqb_neq in En.
        apply IH in H; [exact H | lia | apply odd_plus_2; exact Hodd | lia | lia].
    + apply IH in H; [exact H | lia | apply odd_plus_2; exact Hodd | lia | lia].
  - injection H as <-. cbn [exit_ok]. auto.
Qed.

Lemma fallback_search_spec (fuel : nat) :
  forall n prime_count candidate v,
    3 <= candidate -> candidate mod 2 = 1 ->
    prime_count = confirmed_between 2 candidate -> prime_count < n ->
    fallback_search fuel n prime_count candidate = Some v ->
    miller_rabin v witnesses = true /\ count_confirmed v = n.
Proof.
  induction fuel as [ | fuel IH]; intros n pc c v Hc Hodd Hpc Hlt H;
    [discriminate | ].
  cbn [fallback_search] in H.
  assert (E : (pc <? n) = true) by (apply Z.ltb_lt; exact Hlt).
  rewrite E in H.
  pose proof (confirmed_between_odd_step c Hc Hodd) as Hstep.
  unfold confirmed in Hstep.
  destruct (miller_rabin c witnesses) eqn:Emr.
  - destruct (pc + 1 =? n) eqn:En.
    + injection H as <-. apply Z.eqb_eq in En.
      split; [exact Emr | ].
      unfold count_confirmed. rewrite confirmed_between_last by lia.
      unfold confirmed. rewrite Emr. lia.
    + apply Z.eqb_neq in En.
      apply IH in H; [exact H | lia | apply odd_plus_2; exact Hodd | lia | lia].
  - apply IH in H; [exact H | lia | apply odd_plus_2; exact Hodd | lia | lia].
Qed.

(** The round-trip property, for a lower bound that is at least 3 and does
    not exceed the [n]-th confirmed integer. *)
Theorem nth_prime_round_trip (fuel : nat) (n lower upper v : Z) :
  n <> 1 ->
  location_approximator n = Py.OK (lower, upper) ->
  3 <= lower -> count_confirmed (lower - 1) < n ->
  nth_prime fuel n = Some (Py.OK v) ->
  miller_rabin v witnesses = true /\ count_confirmed v = n.
Proof.
  intros Hn1 Hloc Hlo Hcnt H. unfold nth_prime in H.
  apply Z.eqb_neq in Hn1. rewrite Hn1, Hloc in H.
  unfold count_confirmed in Hcnt.
  replace (lower - 1 + 1) with lower in Hcnt by lia.
  destruct (count_below fuel lower 1 3) as [pc | ] eqn:E1; [ | discriminate].
  apply count_below_spec in E1; [ | lia | reflexivity | reflexivity].
  rewrite Z.max_r in E1 by lia.
  assert (E2 : (lower =? 2) = false) by (apply Z.eqb_neq; lia).
  rewrite E2 in H.
  set (c := if lower mod 2 =? 0 then lower + 1 else lower) in H.
  assert (Hc : 3 <= c /\ c mod 2 = 1 /\ pc = confirmed_between 2 c).
  { subst c. destruct (lower mod 2 =? 0) eqn:E3.
    - apply Z.eqb_eq in E3. split; [lia | split].
      + rewrite <- Zplus_mod_idemp_l, E3. reflexivity.
      + rewrite confirmed_between_last by lia.
        rewrite (confirmed_even lower) by (assumption || lia).
        lia.
    - apply Z.eqb_neq in E3.
      pose proof (Z.mod_pos_bound lower 2 ltac:(lia)).
      split; [lia | split; [lia | exact E1]]. }
  destruct Hc as (Hc3 & Hodd & Hpc).
  destruct (bounded_search fuel n upper pc c) as [r | ] eqn:E4;
    [ | discriminate].
  apply bounded_search_spec in E4; [ | assumption | assumption | assumption | ].
  - destruct r as [w | pc' c']; cbn [exit_ok] in E4.
    + injection H as <-. exact E4.
    + destruct E4 as (Hc' & Hodd' & Hpc' & Hlt').
      destruct (fallback_search fuel n pc' c') as [w | ] eqn:E5;
        [ | discriminate].
      injection H as <-.
      exact (fallback_search_spec _ _ _ _ _ Hc' Hodd' Hpc' Hlt' E5).
  - rewrite Hpc. subst c. destruct (lower mod 2 =? 0) eqn:E3; [ | lia].
    apply Z.eqb_eq in E3.
    rewrite confirmed_between_last by lia.
    rewrite (confirmed_even lower) by (assumption || lia). lia.
Qed.

Example nth_prime_round_trip_at_10 :
  location_approximator 10 = Py.OK (21, 32) /\
  count_confirmed (21 - 1) < 10 /\
  nth_prime 20 10 = Some (Py.OK 29) /\
  miller_rabin 29 witnesses = true /\ count_confirmed 29 = 10.
Proof.
  assert (H1 : location_approximator 10 = Py.OK (21, 32))
    by (vm_compute; reflexivity).
  assert (H2 : count_confirmed (21 - 1) < 10) by (vm_compute; reflexivity).
  assert (H3 : nth_prime 20 10 = Some (Py.OK 29)) by (vm_compute; reflexivity).
  repeat (split; [assumption | ]).
  apply (nth_prime_round_trip 20 10 21 32 29); [discriminate | | lia | | ];
    assumption.
Qed.

(** ** The decomposition [num - 1 = 2^r * d] *)

Lemma factor_loop_spec (fuel : nat) :
  forall r0 d0 r d, 0 < d0 ->
    factor_loop fuel r0 d0 = Some (r, d) ->
    r0 <= r /\ 0 < d /\ d mod 2 = 1 /\ d0 = 2 ^ (r - r0) * d.
Proof.
  induction fuel as [ | fuel IH]; intros r0 d0 r d Hd H; [discriminate | ].
  cbn [factor_loop] in H. destruct (d0 mod 2 =? 0) eqn:E.
  - apply Z.eqb_eq in E.
    pose proof (Z.div_mod d0 2 ltac:(lia)) as Hdm.
    apply IH in H; [ | lia].
    destruct H as (Hr & Hpos & Hodd & Heq).
    repeat split; [lia | exact Hpos | exact Hodd | ].
    replace (r - r0) with (Z.succ (r - (r0 + 1))) by lia.
    rewrite Z.pow_succ_r by lia. lia.
  - apply Z.eqb_neq in E. injection H as <- <-.
    pose proof (Z.mod_pos_bound d0 2 ltac:(lia)).
    repeat split; [lia | exact Hd | lia | ].
    rewrite Z.sub_diag. lia.
Qed.

(** On an odd [num >= 5] the oracle is the witness loop run on the
    decomposition of [num - 1]. *)
Lemma miller_rabin_odd (num : Z) :
  5 <= num -> num mod 2 = 1 ->
  exists r d,
    (1 <= r /\ 0 < d /\ d mod 2 = 1 /\ num - 1 = 2 ^ r * d) /\
    forall ws, miller_rabin num ws = witness_loop num r d ws.
Proof.
  intros H5 Hodd.
  destruct (factor_loop_enough (factor_fuel num) 0 (num - 1))
    as (r & d & Hrd); [lia | | ].
  { unfold factor_fuel.
    assert (Z.log2 (num - 1) <= Z.log2 num) by (apply Z.log2_le_mono; lia).
    lia. }
  assert (Hpos : 0 < num - 1) by lia.
  pose proof (factor_loop_spec _ _ _ _ _ Hpos Hrd)
    as (Hr & Hd & Hdodd & Heq).
  rewrite Z.sub_0_r in Heq.
  exists r, d. split.
  - repeat split; try assumption.
    destruct (Z.eq_dec r 0) as [-> | Hr0]; [ | lia].
    exfalso. rewrite Z.pow_0_r, Z.mul_1_l in Heq.
    assert (Hev : (num - 1) mod 2 = 0).
    { rewrite Zminus_mod, Hodd. reflexivity. }
    rewrite Heq, Hdodd in Hev. discriminate Hev.
  - intros ws. unfold miller_rabin, miller_rabin_fuel.
    assert (E1 : (num <? 2) = false) by (apply Z.ltb_ge; lia).
    assert (E2 : (num =? 2) = false) by (apply Z.eqb_neq; lia).
    assert (E3 : (num =? 3) = false) by (apply Z.eqb_neq; lia).
    assert (E4 : (num mod 2 =? 0) = false) by (apply Z.eqb_neq; lia).
    rewrite E1, E2, E3, E4, Hrd. reflexivity.
Qed.

(** ** The witness loop is the strong probable prime test *)

Lemma pow_two_mod (x num : Z) : Py.pow x 2 num = x ^ 2 mod num.
Proof. apply pow_spec. lia. Qed.

Lemma pow_pow_two_succ (x i : Z) :
  0 <= i -> x ^ (2 ^ (i + 1)) = (x ^ 2) ^ (2 ^ i).
Proof.
  intros Hi. rewrite Z.pow_add_r, Z.pow_1_r, Z.mul_comm by lia.
  apply Z.pow_mul_r; [lia | apply Z.pow_nonneg; lia].
Qed.

Lemma square_loop_false_iff (k : nat) :
  forall num x,
    square_loop k num x = false <->
    exists i, 1 <= i <= Z.of_nat k /\ x ^ (2 ^ i) mod num = num - 1.
Proof.
  induction k as [ | k IH]; intros num x; cbn [square_loop].
  - split; [discriminate | intros (i & Hi & _); lia].
  - rewrite pow_two_mod.
    destruct (x ^ 2 mod num =? num - 1) eqn:E.
    + apply Z.eqb_eq in E. split; [intros _ | reflexivity].
      exists 1. split; [lia | exact E].
    + apply Z.eqb_neq in E. rewrite IH. split.
      * intros (i & Hi & Hx). exists (i + 1). split; [lia | ].
        rewrite pow_pow_two_succ, <- Z.mod_pow_l by lia. exact Hx.
      * intros (i & Hi & Hx).
        destruct (Z.eq_dec i 1) as [-> | Hne]; [contradiction | ].
        exists (i - 1). split; [lia | ].
        rewrite Z.mod_pow_l, <- pow_pow_two_succ by lia.
        replace (i - 1 + 1) with i by lia. exact Hx.
Qed.

Lemma witness_passes_iff (num r d a : Z) :
  1 <= r -> 0 <= d -> a < num ->
  let x := Py.pow a d num in
  ((x =? 1) || (x =? num - 1)
   || negb (square_loop (Z.to_nat (r - 1)) num x)) = true
  <-> strong_probable_prime num r d a.
Proof.
  intros Hr Hd Ha x. subst x. rewrite (pow_spec a d num Hd).
  unfold strong_probable_prime.
  assert (Hpow : forall i, 0 <= i ->
            (a ^ d mod num) ^ (2 ^ i) mod num = a ^ (2 ^ i * d) mod num).
  { intros i Hi. rewrite Z.mod_pow_l, <- Z.pow_mul_r, Z.mul_comm;
      [reflexivity | exact Hd | apply Z.pow_nonneg; lia]. }
  rewrite !orb_true_iff, negb_true_iff, !Z.eqb_eq, square_loop_false_iff.
  split.
  - intros [[H | H] | (i & Hi & H)].
    + left. exact H.
    + right. exists 0. split; [lia | ].
      rewrite Z.pow_0_r, Z.mul_1_l. exact H.
    + right. exists i. split; [lia | ]. rewrite <- Hpow by lia. exact H.
  - intros [H | (i & Hi & H)].
    + left. left. exact H.
    + destruct (Z.eq_dec i 0) as [-> | Hne].
      * left. right. rewrite Z.pow_0_r, Z.mul_1_l in H. exact H.
      * right. exists i. split; [lia | ]. rewrite Hpow by lia. exact H.
Qed.

Lemma witness_loop_true_iff (num r d : Z) (ws : list Z) :
  1 <= r -> 0 <= d ->
  witness_loop num r d ws = true <->
  Forall (fun a => num <= a \/ strong_probable_prime num r d a) ws.
Proof.
  intros Hr Hd. induction ws as [ | a ws IH]; cbn [witness_loop].
  - split; [intros _; constructor | reflexivity].
  - rewrite Z.geb_leb. destruct (num <=? a) eqn:E.
    + apply Z.leb_le in E. rewrite IH. split.
      * intros H. constructor; [left; exact E | exact H].
      * intros H. inversion H; assumption.
    + apply Z.leb_gt in E.
      pose proof (witness_passes_iff num r d a Hr Hd E) as Hp.
      cbv zeta in Hp.
      destruct ((Py.pow a d num =? 1) || (Py.pow a d num =? num - 1)).
      * rewrite IH. split.
        -- intros H. constructor; [right; apply Hp; reflexivity | exact H].
        -- intros H. inversion H; assumption.
      * cbn [orb] in Hp.
        destruct (square_loop (Z.to_nat (r - 1)) num (Py.pow a d num)).
        -- split; [discriminate | ].
           intros H. inversion H as [ | ? ? [Hge | Hspp] _]; subst; [lia | ].
           apply Hp in Hspp. discriminate Hspp.
        -- rewrite IH. split.
           ++ intros H. constructor; [right; apply Hp; reflexivity | exact H].
           ++ intros H. inversion H; assumption.
Qed.

(** X1: on an odd [num >= 5], [miller_rabin] decomposes [num - 1] as
    [2^r * d] with [d] odd and [r >= 1], and answers true exactly when every
    witness below [num] satisfies the condition of its docstring: [a^d = 1]
    or [a^(2^i * d) = -1] for some [0 <= i < r], modulo [num]. *)
Theorem miller_rabin_strong_probable_prime (num : Z) (ws : list Z) :
  5 <= num -> num mod 2 = 1 ->
  exists r d,
    1 <= r /\ d mod 2 = 1 /\ num - 1 = 2 ^ r * d /\
    (miller_rabin num ws = true <->
     Forall (fun a => num <= a \/ strong_probable_prime num r d a) ws).
Proof.
  intros H5 Hodd.
  destruct (miller_rabin_odd num H5 Hodd) as (r & d & (Hr & Hd & Hdo & Heq) & Hmr).
  exists r, d. repeat split; try assumption.
  - rewrite Hmr. apply witness_loop_true_iff; lia.
  - rewrite Hmr. apply witness_loop_true_iff; lia.
Qed.

Lemma miller_rabin_strong_probable_prime_witness :
  5 <= 13 /\ 13 mod 2 = 1 /\
  exists r d,
    1 <= r /\ d mod 2 = 1 /\ 13 - 1 = 2 ^ r * d /\
    (miller_rabin 13 [2; 5] = true <->
     Forall (fun a => 13 <= a \/ strong_probable_prime 13 r d a) [2; 5]).
Proof.
  split; [lia | split; [reflexivity | ]].
  apply (miller_rabin_strong_probable_prime 13 [2; 5]); [lia | reflexivity].
Defined.

(** ** The oracle never rejects a prime *)

Lemma sqrt_one_mod_prime (p x : Z) :
  Z.prime p -> x ^ 2 mod p = 1 -> x mod p = 1 \/ x mod p = p - 1.
Proof.
  intros Hp Hx. pose proof (Z.prime_ge_2 p Hp) as H2.
  assert (Hdiv : (p | (x - 1) * (x + 1))).
  { apply Z.mod_divide; [lia | ].
    replace ((x - 1) * (x + 1)) with (x ^ 2 - 1) by ring.
    rewrite Zminus_mod, Hx, (Z.mod_small 1) by lia. reflexivity. }
  apply (Z.divide_prime_mul _ _ _ Hp) in Hdiv.
  destruct Hdiv as [[q Hq] | [q Hq]].
  - left. replace x with (1 + q * p) by lia.
    rewrite Z_mod_plus_full. apply Z.mod_small. lia.
  - right. replace x with (p - 1 + (q - 1) * p) by lia.
    rewrite Z_mod_plus_full. apply Z.mod_small. lia.
Qed.

Lemma square_chain_prime (p : Z) (k : nat) :
  Z.prime p ->
  forall x, x ^ (2 ^ Z.of_nat k) mod p = 1 ->
    x mod p = 1 \/
    exists i, 0 <= i < Z.of_nat k /\ x ^ (2 ^ i) mod p = p - 1.
Proof.
  intros Hp. induction k as [ | k IH]; intros x Hx.
  - left. rewrite Z.pow_0_r, Z.pow_1_r in Hx. exact Hx.
  - rewrite Nat2Z.inj_succ, <- Z.add_1_r, pow_pow_two_succ in Hx by lia.
    destruct (IH _ Hx) as [H1 | (i & Hi & H)].
    + destruct (sqrt_one_mod_prime p x Hp H1) as [H | H].
      * left. exact H.
      * right. exists 0. split; [lia | ].
        rewrite Z.pow_0_r, Z.pow_1_r. exact H.
    + right. exists (i + 1). split; [lia | ].
      rewrite pow_pow_two_succ by lia. exact H.
Qed.

Lemma strong_probable_prime_of_prime (num r d a : Z) :
  Z.prime num -> 0 <= r -> 0 <= d -> num - 1 = 2 ^ r * d ->
  a mod num <> 0 -> strong_probable_prime num r d a.
Proof.
  intros Hp Hr Hd Heq Ha.
  pose proof (Z.fermat_nz num a Hp Ha) as Hf.
  rewrite Heq, Z.mul_comm, Z.pow_mul_r in Hf
    by (try apply Z.pow_nonneg; lia).
  rewrite <- (Z2Nat.id r Hr) in Hf.
  destruct (square_chain_prime num (Z.to_nat r) Hp _ Hf)
    as [H | (i & Hi & H)].
  - left. exact H.
  - right. exists i. split; [lia | ].
    rewrite <- Z.pow_mul_r, Z.mul_comm in H
      by (try apply Z.pow_nonneg; lia).
    exact H.
Qed.

Lemma miller_rabin_accepts_prime (num : Z) (ws : list Z) :
  Z.prime num -> Forall (usable_witness num) ws ->
  miller_rabin num ws = true.
Proof.
  intros Hp Hws. pose proof (Z.prime_ge_2 num Hp) as H2.
  destruct (Z.eq_dec num 2) as [-> | Hn2]; [reflexivity | ].
  destruct (Z.eq_dec num 3) as [-> | Hn3]; [reflexivity | ].
  assert (Hodd : num mod 2 = 1).
  { pose proof (Z.mod_pos_bound num 2 ltac:(lia)) as Hb.
    destruct (Z.eq_dec (num mod 2) 0) as [E | E]; [ | lia].
    exfalso. destruct Hp as [_ Hp]. apply (Hp 2); [lia | ].
    apply Z.mod_divide; [lia | exact E]. }
  assert (H5 : 5 <= num).
  { destruct (Z.eq_dec num 4) as [-> | ]; [discriminate Hodd | lia]. }
  destruct (miller_rabin_odd num H5 Hodd)
    as (r & d & (Hr & Hd & _ & Heq) & Hmr).
  rewrite Hmr. apply witness_loop_true_iff; [lia | lia | ].
  apply Forall_impl with (2 := Hws). intros a [Hge | Hnz].
  - left. exact Hge.
  - right. apply strong_probable_prime_of_prime; try assumption; lia.
Qed.

Lemma usable_witnesses_fixed (num : Z) :
  2 <= num -> Forall (usable_witness num) witnesses.
Proof.
  intros H2. unfold witnesses, usable_witness.
  repeat (apply Forall_cons;
    [ match goal with
      | |- num <= ?a \/ _ =>
          destruct (Z_le_gt_dec num a) as [Hle | Hgt];
          [left; exact Hle | right; rewrite Z.mod_small by lia; lia]
      end | ]).
  apply Forall_nil.
Qed.

(** X2: [miller_rabin] never rejects a prime.  Whatever the witness list,
    as long as every witness below [num] is not a multiple of [num] (so
    not 0), a prime [num] is answered true; a false answer therefore
    proves [num] composite. *)
Theorem miller_rabin_never_rejects_prime (num : Z) (ws : list Z) :
  Z.prime num -> Forall (usable_witness num) ws ->
  miller_rabin num ws = true.
Proof. apply miller_rabin_accepts_prime. Qed.

Lemma miller_rabin_never_rejects_prime_witness :
  Z.prime 13 /\ Forall (usable_witness 13) [2; 5; 20] /\
  miller_rabin 13 [2; 5; 20] = true.
Proof.
  assert (H1 : Z.prime 13)
    by (apply (trial_division_sound 5 13); vm_compute; reflexivity).
  assert (H2 : Forall (usable_witness 13) [2; 5; 20]).
  { apply Forall_cons; [right; vm_compute; discriminate | ].
    apply Forall_cons; [right; vm_compute; discriminate | ].
    apply Forall_cons; [left; lia | apply Forall_nil]. }
  split; [exact H1 | split; [exact H2 | ]].
  exact (miller_rabin_never_rejects_prime 13 [2; 5; 20] H1 H2).
Defined.

(** X3: with the fixed witness list of [nth_prime] the oracle answers true
    on every prime, of any size. *)
Theorem miller_rabin_fixed_witnesses_accept_primes (num : Z) :
  Z.prime num -> miller_rabin num witnesses = true.
Proof.
  intros Hp. apply miller_rabin_accepts_prime; [exact Hp | ].
  apply usable_witnesses_fixed. exact (Z.prime_ge_2 num Hp).
Qed.

Lemma miller_rabin_fixed_witnesses_accept_primes_witness :
  Z.prime 7919 /\ miller_rabin 7919 witnesses = true.
Proof.
  assert (H : Z.prime 7919)
    by (apply (trial_division_sound 50 7919); vm_compute; reflexivity).
  split; [exact H | ].
  exact (miller_rabin_fixed_witnesses_accept_primes 7919 H).
Defined.

(** A power of a multiple of [num] is 0 modulo [num]. *)
Lemma pow_zero_base (a d num : Z) :
  0 < d -> 1 < num -> a mod num = 0 -> a ^ d mod num = 0.
Proof.
  intros Hd Hn Ha. rewrite <- Z.mod_pow_l, Ha, Z.pow_0_l by lia.
  apply Z.mod_0_l. lia.
Qed.

(** ** Witness lists: empty, concatenated, reordered, filtered *)

Lemma witness_loop_app (num r d : Z) (ws1 ws2 : list Z) :
  witness_loop num r d (ws1 ++ ws2)
  = witness_loop num r d ws1 && witness_loop num r d ws2.
Proof.
  induction ws1 as [ | a ws1 IH]; cbn [app witness_loop]; [reflexivity | ].
  destruct (a >=? num); [exact IH | ].
  destruct ((Py.pow a d num =? 1) || (Py.pow a d num =? num - 1));
    [exact IH | ].
  destruct (square_loop (Z.to_nat (r - 1)) num (Py.pow a d num));
    [reflexivity | exact IH].
Qed.

(** The oracle as a base-case answer or a witness loop. *)
Lemma miller_rabin_cases (num : Z) :
  (forall ws, miller_rabin num ws = false) \/
  (forall ws, miller_rabin num ws = true) \/
  (exists r d, forall ws, miller_rabin num ws = witness_loop num r d ws).
Proof.
  unfold miller_rabin, miller_rabin_fuel.
  destruct (num <? 2); [left; reflexivity | ].
  destruct ((num =? 2) || (num =? 3)); [right; left; reflexivity | ].
  destruct (num mod 2 =? 0); [left; reflexivity | ].
  destruct (factor_loop (factor_fuel num) 0 (num - 1)) as [[r d] | ].
  - right. right. exists r, d. reflexivity.
  - left. reflexivity.
Qed.

(** X4: testing with a concatenated witness list is the conjunction of
    the two tests, on every [num]: more witnesses can only turn a true
    answer into false. *)
Theorem miller_rabin_app (num : Z) (ws1 ws2 : list Z) :
  miller_rabin num (ws1 ++ ws2)
  = miller_rabin num ws1 && miller_rabin num ws2.
Proof.
  destruct (miller_rabin_cases num) as [H | [H | (r & d & H)]].
  - rewrite !H. reflexivity.
  - rewrite !H. reflexivity.
  - rewrite !H. apply witness_loop_app.
Qed.

Lemma witness_loop_permutation (num r d : Z) (ws ws' : list Z) :
  Permutation ws ws' ->
  witness_loop num r d ws = witness_loop num r d ws'.
Proof.
  intros HP. induction HP as [ | a l l' _ IH | a b l | l l' l'' _ IH1 _ IH2].
  - reflexivity.
  - change (a :: l) with ([a] ++ l). change (a :: l') with ([a] ++ l').
    rewrite !witness_loop_app, IH. reflexivity.
  - change (b :: a :: l) with ([b] ++ [a] ++ l).
    change (a :: b :: l) with ([a] ++ [b] ++ l).
    rewrite !witness_loop_app.
    destruct (witness_loop num r d [a]), (witness_loop num r d [b]);
      reflexivity.
  - congruence.
Qed.

(** X5: the answer does not depend on the order of the witnesses. *)
Theorem miller_rabin_permutation (num : Z) (ws ws' : list Z) :
  Permutation ws ws' -> miller_rabin num ws = miller_rabin num ws'.
Proof.
  intros HP.
  destruct (miller_rabin_cases num) as [H | [H | (r & d & H)]].
  - rewrite !H. reflexivity.
  - rewrite !H. reflexivity.
  - rewrite !H. apply witness_loop_permutation. exact HP.
Qed.

Lemma miller_rabin_permutation_witness :
  Permutation [2; 3; 5] [5; 2; 3] /\
  miller_rabin 91 [2; 3; 5] = miller_rabin 91 [5; 2; 3].
Proof.
  assert (HP : Permutation [2; 3; 5] [5; 2; 3]).
  { apply Permutation_sym. apply (Permutation_cons_app [2; 3] [] 5).
    apply Permutation_refl. }
  split; [exact HP | exact (miller_rabin_permutation 91 _ _ HP)].
Defined.

Lemma witness_loop_filter (num r d : Z) (ws : list Z) :
  witness_loop num r d ws
  = witness_loop num r d (filter (fun a => a <? num) ws).
Proof.
  induction ws as [ | a ws IH]; cbn [filter witness_loop]; [reflexivity | ].
  rewrite Z.geb_leb. destruct (a <? num) eqn:E.
  - cbn [witness_loop]. rewrite Z.geb_leb, IH. reflexivity.
  - apply Z.ltb_ge in E. apply Z.leb_le in E. rewrite E. exact IH.
Qed.

(** X6: witnesses that are not below [num] are skipped: the answer is the
    one for the list without them. *)
Theorem miller_rabin_skips_large_witnesses (num : Z) (ws : list Z) :
  miller_rabin num ws = miller_rabin num (filter (fun a => a <? num) ws).
Proof.
  destruct (miller_rabin_cases num) as [H | [H | (r & d & H)]].
  - rewrite !H. reflexivity.
  - rewrite !H. reflexivity.
  - rewrite !H. apply witness_loop_filter.
Qed.

(** X7: with an empty witness list the oracle answers true on 2 and on
    every odd number from 3 on, prime or not, and false elsewhere. *)
Theorem miller_rabin_no_witness (num : Z) :
  miller_rabin num [] = true <-> num = 2 \/ (3 <= num /\ num mod 2 = 1).
Proof.
  unfold miller_rabin, miller_rabin_fuel.
  destruct (num <? 2) eqn:E1.
  { apply Z.ltb_lt in E1. split; [discriminate | lia]. }
  apply Z.ltb_ge in E1.
  destruct (Z.eq_dec num 2) as [-> | Hn2]; [split; [left | ]; reflexivity | ].
  destruct (Z.eq_dec num 3) as [-> | Hn3].
  { split; [right; split; [lia | ] | ]; reflexivity. }
  assert (E2 : ((num =? 2) || (num =? 3)) = false).
  { apply orb_false_iff. split; apply Z.eqb_neq; assumption. }
  rewrite E2.
  pose proof (Z.mod_pos_bound num 2 ltac:(lia)) as Hb.
  destruct (num mod 2 =? 0) eqn:E3.
  - apply Z.eqb_eq in E3. split; [discriminate | lia].
  - apply Z.eqb_neq in E3.
    destruct (factor_loop_enough (factor_fuel num) 0 (num - 1))
      as (r & d & Hrd); [lia | | ].
    { unfold factor_fuel.
      assert (Z.log2 (num - 1) <= Z.log2 num) by (apply Z.log2_le_mono; lia).
      lia. }
    rewrite Hrd. cbn [witness_loop]. split; [intros _; right; lia | reflexivity].
Qed.

(** ** A witness that is a multiple of [num] *)

(** X8: a witness below [num] that is a multiple of [num], such as 0,
    makes the oracle answer false on every odd [num >= 5], prime or not. *)
Theorem miller_rabin_rejects_on_multiple_witness (num a : Z) (ws : list Z) :
  5 <= num -> num mod 2 = 1 ->
  In a ws -> a < num -> a mod num = 0 ->
  miller_rabin num ws = false.
Proof.
  intros H5 Hodd Hin Ha Hmod.
  destruct (miller_rabin_odd num H5 Hodd)
    as (r & d & (Hr & Hd & _ & Heq) & Hmr).
  rewrite Hmr. destruct (witness_loop num r d ws) eqn:E; [ | reflexivity].
  exfalso. apply witness_loop_true_iff in E; [ | lia | lia].
  rewrite Forall_forall in E.
  destruct (E a Hin) as [Hge | [H1 | (i & Hi & Hm1)]]; [lia | | ].
  - rewrite pow_zero_base in H1 by (assumption || lia). discriminate H1.
  - rewrite pow_zero_base in Hm1; [lia | | lia | exact Hmod].
    assert (0 < 2 ^ i) by (apply Z.pow_pos_nonneg; lia). nia.
Qed.

Lemma miller_rabin_rejects_on_multiple_witness_witness :
  5 <= 7 /\ 7 mod 2 = 1 /\ In 0 [2; 0] /\ 0 < 7 /\ 0 mod 7 = 0 /\
  miller_rabin 7 [2; 0] = false.
Proof.
  assert (H1 : 5 <= 7) by lia.
  assert (H2 : 7 mod 2 = 1) by reflexivity.
  assert (H3 : In 0 [2; 0]) by (right; left; reflexivity).
  assert (H4 : 0 < 7) by lia.
  assert (H5 : 0 mod 7 = 0) by reflexivity.
  repeat (split; [assumption | ]).
  exact (miller_rabin_rejects_on_multiple_witness 7 0 [2; 0] H1 H2 H3 H4 H5).
Defined.

(** ** Infinitely many integers are confirmed *)

Lemma prime_divisor (n : Z) :
  2 <= n -> exists p, Z.prime p /\ (p | n).
Proof.
  intros Hn.
  assert (H : forall k : nat, forall m, 2 <= m <= Z.of_nat k ->
                exists p, Z.prime p /\ (p | m)).
  { induction k as [ | k IH]; intros m Hm; [lia | ].
    destruct (prime_dec m) as [Hp | Hnp].
    - exists m. split; [apply prime_alt; exact Hp | apply Z.divide_refl].
    - destruct (not_prime_divide m ltac:(lia) Hnp) as (d & Hd & Hdiv).
      destruct (IH d ltac:(lia)) as (p & Hp & Hpd).
      exists p. split; [exact Hp | ].
      apply Z.divide_trans with d; assumption. }
  apply (H (Z.to_nat n) n). lia.
Qed.

Lemma divide_fact (k : nat) :
  forall d, 1 <= d <= Z.of_nat k -> (d | Z.of_nat (fact k)).
Proof.
  induction k as [ | k IH]; intros d Hd; [lia | ].
  change (fact (S k)) with (S k * fact k)%nat. rewrite Nat2Z.inj_mul.
  destruct (Z.eq_dec d (Z.of_nat (S k))) as [-> | Hne].
  - apply Z.divide_factor_l.
  - apply Z.divide_mul_r. apply IH. lia.
Qed.

Lemma exists_prime_above (m : Z) : exists p, Z.prime p /\ m < p.
Proof.
  set (k := Z.to_nat m).
  assert (Hpos : 1 <= Z.of_nat (fact k)).
  { pose proof (fact_neq_0 k). lia. }
  destruct (prime_divisor (Z.of_nat (fact k) + 1) ltac:(lia))
    as (p & Hp & Hdiv).
  exists p. split; [exact Hp | ].
  pose proof (Z.prime_ge_2 p Hp) as H2.
  destruct (Z_lt_le_dec m p) as [Hlt | Hle]; [exact Hlt | exfalso].
  assert (Hpf : (p | Z.of_nat (fact k))) by (apply divide_fact; lia).
  assert (Hp1 : (p | 1)).
  { replace 1 with (Z.of_nat (fact k) + 1 - Z.of_nat (fact k)) by lia.
    apply Z.divide_sub_r; assumption. }
  apply Z.divide_1_r_nonneg in Hp1; lia.
Qed.

Lemma prime_odd (p : Z) : Z.prime p -> 2 < p -> p mod 2 = 1.
Proof.
  intros Hp H2. pose proof (Z.mod_pos_bound p 2 ltac:(lia)) as Hb.
  destruct (Z.eq_dec (p mod 2) 0) as [E | E]; [ | lia].
  exfalso. destruct Hp as [_ Hp]. apply (Hp 2); [lia | ].
  apply Z.mod_divide; [lia | exact E].
Qed.

(** From any odd candidate on, some later odd candidate is confirmed. *)
Lemma confirmed_candidate_ahead (c : Z) :
  c mod 2 = 1 ->
  exists j : nat, miller_rabin (c + 2 * Z.of_nat j) witnesses = true.
Proof.
  intros Hodd.
  destruct (exists_prime_above (Z.max c 2)) as (p & Hp & Hgt).
  pose proof (prime_odd p Hp ltac:(lia)) as Hpo.
  pose proof (Z.div_mod p 2 ltac:(lia)) as Hp2.
  pose proof (Z.div_mod c 2 ltac:(lia)) as Hc2.
  exists (Z.to_nat (p / 2 - c / 2)).
  replace (c + 2 * Z.of_nat (Z.to_nat (p / 2 - c / 2))) with p by lia.
  apply miller_rabin_accepts_prime; [exact Hp | ].
  apply usable_witnesses_fixed. lia.
Qed.

(** ** Termination of the three loops of [nth_prime] *)

Lemma count_below_terminates (fuel : nat) :
  forall lower_bound prime_count candidate,
    (Z.to_nat (lower_bound - candidate) < fuel)%nat ->
    exists v, count_below fuel lower_bound prime_count candidate = Some v.
Proof.
  induction fuel as [ | fuel IH]; intros lb pc c Hf; [lia | ].
  cbn [count_below]. destruct (c <? lb) eqn:E.
  - apply Z.ltb_lt in E. apply IH. lia.
  - eauto.
Qed.

Lemma bounded_search_terminates (fuel : nat) :
  forall n upper_bound prime_count candidate,
    (Z.to_nat (upper_bound + 1 - candidate) < fuel)%nat ->
    exists r,
      bounded_search fuel n upper_bound prime_count candidate = Some r.
Proof.
  induction fuel as [ | fuel IH]; intros n ub pc c Hf; [lia | ].
  cbn [bounded_search].
  destruct ((pc <? n) && (c <=? ub)) eqn:E; [ | eauto].
  apply andb_true_iff in E. destruct E as [_ E]. apply Z.leb_le in E.
  assert (Hnext : (Z.to_nat (ub + 1 - (if (c =? 2)%Z then 3 else c + 2)%Z)
                   < fuel)%nat).
  { destruct (c =? 2) eqn:E2; [apply Z.eqb_eq in E2 | ]; lia. }
  destruct ((c =? 2) || ((c >? 2) && miller_rabin c witnesses)).
  - destruct (pc + 1 =? n); [eauto | ]. apply IH. exact Hnext.
  - apply IH. exact Hnext.
Qed.

Lemma fallback_search_terminates (n : Z) (k : nat) :
  forall prime_count candidate,
    candidate mod 2 = 1 -> n - prime_count <= Z.of_nat k ->
    exists fuel v, fallback_search fuel n prime_count candidate = Some v.
Proof.
  induction k as [ | k IHk]; intros pc c Hodd Hk.
  - exists 1%nat, c. cbn [fallback_search].
    assert (E : (pc <? n) = false) by (apply Z.ltb_ge; lia).
    rewrite E. reflexivity.
  - assert (Hhit : forall c, c mod 2 = 1 ->
              miller_rabin c witnesses = true ->
              exists fuel v, fallback_search fuel n pc c = Some v).
    { intros c' Hodd' Hmr. destruct (pc <? n) eqn:E.
      - destruct (pc + 1 =? n) eqn:En.
        + exists 1%nat, c'. cbn [fallback_search]. rewrite E, Hmr, En.
          reflexivity.
        + apply Z.eqb_neq in En.
          destruct (IHk (pc + 1) (c' + 2)) as (fuel & v & Hv);
            [apply odd_plus_2; exact Hodd' | lia | ].
          apply Z.eqb_neq in En.
          exists (S fuel), v. cbn [fallback_search].
          rewrite E, Hmr, En. exact Hv.
      - exists 1%nat, c'. cbn [fallback_search]. rewrite E. reflexivity. }
    destruct (confirmed_candidate_ahead c Hodd) as (j & Hj).
    revert c Hodd Hj. induction j as [ | j IHj]; intros c Hodd Hj.
    + replace (c + 2 * Z.of_nat 0) with c in Hj by lia.
      apply Hhit; assumption.
    + destruct (miller_rabin c witnesses) eqn:Emr;
        [apply Hhit; assumption | ].
      destruct (pc <? n) eqn:E;
        [ | exists 1%nat, c; cbn [fallback_search]; rewrite E; reflexivity].
      destruct (IHj (c + 2)) as (fuel & v & Hv);
        [apply odd_plus_2; exact Hodd | | ].
      { replace (c + 2 + 2 * Z.of_nat j) with (c + 2 * Z.of_nat (S j))
          by lia. exact Hj. }
      exists (S fuel), v. cbn [fallback_search]. rewrite E, Emr. exact Hv.
Qed.

(** ** Where the search goes *)

Lemma nth_prime_unfold (fuel : nat) (n lower upper : Z) :
  n <> 1 -> location_approximator n = Py.OK (lower, upper) ->
  nth_prime fuel n =
  match count_below fuel lower 1 3 with
  | None => None
  | Some prime_count =>
      match bounded_search fuel n upper prime_count
              (start_candidate lower) with
      | None => None
      | Some (Returned v) => Some (Py.OK v)
      | Some (Fell prime_count' candidate') =>
          match fallback_search fuel n prime_count' candidate' with
          | None => None
          | Some v => Some (Py.OK v)
          end
      end
  end.
Proof.
  intros Hn Hloc. unfold nth_prime. apply Z.eqb_neq in Hn.
  rewrite Hn, Hloc. reflexivity.
Qed.

Lemma location_approximator_index (n lower upper : Z) :
  location_approximator n = Py.OK (lower, upper) -> 1 <= n.
Proof.
  intros H. destruct (Z_lt_le_dec n 1) as [Hlt | Hle]; [ | exact Hle].
  rewrite (location_approximator_invalid n Hlt) in H. discriminate H.
Qed.

Lemma start_candidate_shape (lower : Z) :
  lower <= start_candidate lower /\
  two_or_odd (start_candidate lower) /\
  (start_candidate lower = 2 -> lower = 2).
Proof.
  unfold start_candidate, two_or_odd.
  destruct (lower =? 2) eqn:E1.
  - apply Z.eqb_eq in E1. lia.
  - apply Z.eqb_neq in E1.
    pose proof (Z.mod_pos_bound lower 2 ltac:(lia)) as Hb.
    destruct (lower mod 2 =? 0) eqn:E2.
    + apply Z.eqb_eq in E2.
      assert ((lower + 1) mod 2 = 1)
        by (rewrite <- Zplus_mod_idemp_l, E2; reflexivity).
      repeat split; [lia | right; assumption | ].
      intros H2. rewrite H2 in H. discriminate H.
    + apply Z.eqb_neq in E2. repeat split; [lia | right; lia | lia].
Qed.

Lemma bounded_search_exit_shape (fuel : nat) :
  forall n upper_bound prime_count candidate r,
    two_or_odd candidate ->
    bounded_search fuel n upper_bound prime_count candidate = Some r ->
    match r with
    | Returned v => candidate <= v <= upper_bound /\ two_or_odd v
    | Fell prime_count' candidate' =>
        candidate <= candidate' /\
        (candidate' mod 2 = 1 \/
         (candidate' = 2 /\ candidate = 2 /\ prime_count' = prime_count /\
          ~ (prime_count < n /\ 2 <= upper_bound)))
    end.
Proof.
  induction fuel as [ | fuel IH]; intros n ub pc c r Hc H; [discriminate | ].
  cbn [bounded_search] in H.
  destruct ((pc <? n) && (c <=? ub)) eqn:E.
  - apply andb_true_iff in E. destruct E as [E1 E2].
    apply Z.leb_le in E2.
    set (next := if c =? 2 then 3 else c + 2) in H.
    assert (Hnext : c <= next /\ next mod 2 = 1).
    { subst next. destruct (c =? 2) eqn:E3.
      - apply Z.eqb_eq in E3. split; [lia | reflexivity].
      - apply Z.eqb_neq in E3. destruct Hc as [Hc | Hodd]; [contradiction | ].
        split; [lia | apply odd_plus_2; exact Hodd]. }
    destruct Hnext as [Hle Hodd'].
    assert (Hrec : forall pc', bounded_search fuel n ub pc' next = Some r ->
              match r with
              | Returned v => c <= v <= ub /\ two_or_odd v
              | Fell pc'' c' =>
                  c <= c' /\
                  (c' mod 2 = 1 \/
                   (c' = 2 /\ c = 2 /\ pc'' = pc /\
                    ~ (pc < n /\ 2 <= ub)))
              end).
    { intros pc' H'. apply IH in H'; [ | right; exact Hodd'].
      destruct r as [v | pc'' c'].
      - destruct H' as [H1 H2]. split; [lia | exact H2].
      - destruct H' as [H1 [H2 | (H2 & H3 & _)]].
        + split; [lia | left; exact H2].
        + rewrite H3 in Hodd'. discriminate Hodd'. }
    destruct ((c =? 2) || ((c >? 2) && miller_rabin c witnesses)).
    + destruct (pc + 1 =? n).
      * injection H as <-. split; [lia | exact Hc].
      * exact (Hrec _ H).
    + exact (Hrec _ H).
  - injection H as <-. split; [lia | ].
    destruct Hc as [-> | Hodd]; [ | left; exact Hodd].
    right. repeat split. intros [H1 H2].
    apply Z.ltb_lt in H1. apply Z.leb_le in H2. rewrite H1, H2 in E.
    discriminate E.
Qed.

Lemma fallback_search_odd (fuel : nat) :
  forall n prime_count candidate v,
    candidate mod 2 = 1 ->
    fallback_search fuel n prime_count candidate = Some v ->
    candidate <= v /\ v mod 2 = 1.
Proof.
  induction fuel as [ | fuel IH]; intros n pc c v Hodd H; [discriminate | ].
  cbn [fallback_search] in H.
  assert (Hrec : forall pc', fallback_search fuel n pc' (c + 2) = Some v ->
            c <= v /\ v mod 2 = 1).
  { intros pc' H'. apply IH in H'; [ | apply odd_plus_2; exact Hodd]. lia. }
  destruct (pc <? n).
  - destruct (miller_rabin c witnesses).
    + destruct (pc + 1 =? n); [ | exact (Hrec _ H)].
      injection H as <-. split; [lia | exact Hodd].
    + exact (Hrec _ H).
  - injection H as <-. split; [lia | exact Hodd].
Qed.

Lemma fallback_search_even_none (fuel : nat) :
  forall n prime_count candidate,
    2 < candidate -> candidate mod 2 = 0 -> prime_count < n ->
    fallback_search fuel n prime_count candidate = None.
Proof.
  induction fuel as [ | fuel IH]; intros n pc c Hc Hev Hlt; [reflexivity | ].
  cbn [fallback_search]. apply Z.ltb_lt in Hlt. rewrite Hlt.
  rewrite (miller_rabin_even witnesses c Hc Hev).
  apply IH; [lia | | apply Z.ltb_lt; exact Hlt].
  rewrite <- Zplus_mod_idemp_l, Hev. reflexivity.
Qed.

Lemma fallback_search_two (fuel : nat) (n prime_count v : Z) :
  fallback_search fuel n prime_count 2 = Some v -> v = 2.
Proof.
  destruct fuel as [ | fuel]; [discriminate | ]. cbn [fallback_search].
  destruct (prime_count <? n) eqn:E; [ | congruence].
  change (miller_rabin 2 witnesses) with true. cbv iota.
  destruct (prime_count + 1 =? n) eqn:En; [congruence | ].
  apply Z.ltb_lt in E. apply Z.eqb_neq in En.
  rewrite fallback_search_even_none by (try reflexivity; lia).
  discriminate.
Qed.

(** X9: whatever the bounds, the value [nth_prime] returns is not below
    the lower bound of the estimator and is 2 or odd: the search never
    returns an even number above 2. *)
Theorem nth_prime_above_lower_and_odd (fuel : nat) (n lower upper v : Z) :
  location_approximator n = Py.OK (lower, upper) ->
  nth_prime fuel n = Some (Py.OK v) ->
  lower <= v /\ (v = 2 \/ v mod 2 = 1).
Proof.
  intros Hloc H.
  destruct (Z.eq_dec n 1) as [-> | Hn1].
  { vm_compute in Hloc. vm_compute in H.
    injection Hloc as <- _. injection H as <-. split; [lia | left; reflexivity]. }
  rewrite (nth_prime_unfold fuel n lower upper Hn1 Hloc) in H.
  destruct (count_below fuel lower 1 3) as [pc | ]; [ | discriminate].
  destruct (start_candidate_shape lower) as (Hle & Hshape & _).
  destruct (bounded_search fuel n upper pc (start_candidate lower))
    as [r | ] eqn:E; [ | discriminate].
  apply bounded_search_exit_shape in E; [ | exact Hshape].
  destruct r as [w | pc' c'].
  - injection H as <-. destruct E as [E1 E2]. split; [lia | exact E2].
  - destruct E as [E1 E2].
    destruct (fallback_search fuel n pc' c') as [w | ] eqn:E3;
      [ | discriminate].
    injection H as <-. destruct E2 as [Hodd | (-> & Hs & _)].
    + apply fallback_search_odd in E3; [ | exact Hodd].
      split; [lia | right; apply E3].
    + apply fallback_search_two in E3. subst w. split; [lia | left; reflexivity].
Qed.

Lemma nth_prime_above_lower_and_odd_witness :
  location_approximator 1000 = Py.OK (7841, 8841) /\
  nth_prime 4000 1000 = Some (Py.OK 7919) /\
  7841 <= 7919 /\ (7919 = 2 \/ 7919 mod 2 = 1).
Proof.
  assert (H1 : location_approximator 1000 = Py.OK (7841, 8841))
    by (vm_compute; reflexivity).
  assert (H2 : nth_prime 4000 1000 = Some (Py.OK 7919))
    by (vm_compute; reflexivity).
  split; [exact H1 | split; [exact H2 | ]].
  exact (nth_prime_above_lower_and_odd 4000 1000 7841 8841 7919 H1 H2).
Defined.

(** ** [nth_prime] terminates *)

Lemma count_below_from_two (fuel : nat) (v : Z) :
  count_below fuel 2 1 3 = Some v -> v = 1.
Proof.
  destruct fuel as [ | fuel]; [discriminate | ].
  cbn [count_below]. change (3 <? 2) with false. cbv iota. congruence.
Qed.

Lemma nth_prime_terminates_aux (n lower upper : Z) :
  location_approximator n = Py.OK (lower, upper) ->
  (lower = 2 -> 2 <= upper) ->
  exists fuel v, nth_prime fuel n = Some (Py.OK v).
Proof.
  intros Hloc Hup.
  destruct (Z.eq_dec n 1) as [-> | Hn1]; [exists 0%nat, 2; reflexivity | ].
  pose proof (location_approximator_index n lower upper Hloc) as Hn.
  set (f1 := S (Z.to_nat (lower - 3))).
  set (f2 := S (Z.to_nat (upper + 1 - start_candidate lower))).
  destruct (count_below_terminates f1 lower 1 3) as (pc & Hpc);
    [subst f1; lia | ].
  destruct (bounded_search_terminates f2 n upper pc (start_candidate lower))
    as (r & Hr); [subst f2; lia | ].
  destruct (start_candidate_shape lower) as (_ & Hshape & Htwo).
  pose proof (bounded_search_exit_shape _ _ _ _ _ _ Hshape Hr) as Hexit.
  destruct r as [v | pc' c'].
  - exists (f1 + f2)%nat, v.
    rewrite (nth_prime_unfold _ n lower upper Hn1 Hloc).
    rewrite (count_below_more _ _ _ _ _ Hpc) by lia.
    rewrite (bounded_search_more _ _ _ _ _ _ Hr) by lia. reflexivity.
  - assert (Hodd : c' mod 2 = 1).
    { destruct Hexit as [_ [Hodd | (_ & Hs & _ & Hno)]]; [exact Hodd | ].
      exfalso. apply Hno. pose proof (Htwo Hs) as Hl2. subst lower.
      apply count_below_from_two in Hpc. lia. }
    destruct (fallback_search_terminates n (Z.to_nat (n - pc')) pc' c' Hodd)
      as (f3 & v & Hv); [lia | ].
    exists (f1 + f2 + f3)%nat, v.
    rewrite (nth_prime_unfold _ n lower upper Hn1 Hloc).
    rewrite (count_below_more _ _ _ _ _ Hpc) by lia.
    rewrite (bounded_search_more _ _ _ _ _ _ Hr) by lia.
    rewrite (fallback_search_more _ _ _ _ _ Hv) by lia. reflexivity.
Qed.

(** X10: [nth_prime] terminates.  Whenever the estimator returns a pair
    (with an upper bound of at least 2 should the lower bound be 2), some
    amount of fuel lets the three loops finish with a returned value: the
    fallback search always meets enough confirmed integers, since the
    oracle confirms every prime and there are infinitely many. *)
Theorem nth_prime_terminates (n lower upper : Z) :
  location_approximator n = Py.OK (lower, upper) ->
  (lower = 2 -> 2 <= upper) ->
  exists fuel v, nth_prime fuel n = Some (Py.OK v).
Proof. apply nth_prime_terminates_aux. Qed.

Lemma nth_prime_terminates_witness :
  location_approximator 5 = Py.OK (2, 30) /\
  (2 = 2 -> 2 <= 30) /\
  exists fuel v, nth_prime fuel 5 = Some (Py.OK v).
Proof.
  assert (H1 : location_approximator 5 = Py.OK (2, 30))
    by (vm_compute; reflexivity).
  assert (H2 : 2 = 2 -> 2 <= 30) by lia.
  split; [exact H1 | split; [exact H2 | ]].
  exact (nth_prime_terminates 5 2 30 H1 H2).
Defined.

(** ** The result when the interval contains the target *)

Lemma confirmed_nonneg (q : Z) : 0 <= confirmed q <= 1.
Proof. unfold confirmed. destruct (miller_rabin q witnesses); lia. Qed.

Lemma confirmed_between_mono (a : Z) (k : nat) :
  forall b, a <= b ->
    confirmed_between a b <= confirmed_between a (b + Z.of_nat k).
Proof.
  induction k as [ | k IH]; intros b Hb.
  - replace (b + Z.of_nat 0) with b by lia. lia.
  - replace (b + Z.of_nat (S k)) with (b + Z.of_nat k + 1) by lia.
    rewrite confirmed_between_last by lia.
    pose proof (IH b Hb). pose proof (confirmed_nonneg (b + Z.of_nat k)).
    lia.
Qed.

Lemma count_confirmed_from_nonneg (k : nat) :
  forall q, 0 <= count_confirmed_from k q.
Proof.
  induction k as [ | k IH]; intros q; cbn [count_confirmed_from]; [lia | ].
  pose proof (confirmed_nonneg q). pose proof (IH (q + 1)). lia.
Qed.

Lemma confirmed_between_le (a b b' : Z) :
  b <= b' -> confirmed_between a b <= confirmed_between a b'.
Proof.
  intros H. destruct (Z_le_gt_dec a b) as [Hab | Hab].
  - replace b' with (b + Z.of_nat (Z.to_nat (b' - b))) by lia.
    apply confirmed_between_mono. exact Hab.
  - unfold confirmed_between at 1.
    replace (Z.to_nat (b - a)) with 0%nat by lia.
    apply count_confirmed_from_nonneg.
Qed.

Lemma bounded_search_finds (fuel : nat) :
  forall n upper_bound prime_count candidate,
    3 <= candidate -> candidate mod 2 = 1 ->
    prime_count = confirmed_between 2 candidate ->
    prime_count < n <= count_confirmed upper_bound ->
    (Z.to_nat (upper_bound + 1 - candidate) < fuel)%nat ->
    exists v,
      bounded_search fuel n upper_bound prime_count candidate
      = Some (Returned v) /\ candidate <= v <= upper_bound.
Proof.
  induction fuel as [ | fuel IH]; intros n ub pc c Hc Hodd Hpc Hn Hf;
    [lia | ].
  assert (Hcub : c <= ub).
  { destruct (Z_le_gt_dec c ub) as [Hle | Hgt]; [exact Hle | exfalso].
    unfold count_confirmed in Hn.
    pose proof (confirmed_between_le 2 (ub + 1) c ltac:(lia)). lia. }
  cbn [bounded_search].
  assert (E1 : (pc <? n) = true) by (apply Z.ltb_lt; lia).
  assert (E2 : (c <=? ub) = true) by (apply Z.leb_le; exact Hcub).
  assert (E3 : (c =? 2) = false) by (apply Z.eqb_neq; lia).
  assert (E4 : (c >? 2) = true) by (rewrite Z.gtb_ltb; apply Z.ltb_lt; lia).
  rewrite E1, E2, E3, E4. cbn [andb orb].
  pose proof (confirmed_between_odd_step c Hc Hodd) as Hstep.
  unfold confirmed in Hstep.
  assert (Hrec : forall pc', pc' = confirmed_between 2 (c + 2) ->
            pc' < n ->
            exists v, bounded_search fuel n ub pc' (c + 2)
                      = Some (Returned v) /\ c <= v <= ub).
  { intros pc' Hpc' Hlt.
    destruct (IH n ub pc' (c + 2)) as (v & Hv & Hrange);
      [lia | apply odd_plus_2; exact Hodd | exact Hpc' | lia | lia | ].
    exists v. split; [exact Hv | lia]. }
  destruct (miller_rabin c witnesses).
  - destruct (pc + 1 =? n) eqn:En.
    + exists c. split; [reflexivity | lia].
    + apply Z.eqb_neq in En. apply Hrec; lia.
  - apply Hrec; lia.
Qed.

(** X11: when the interval of the estimator contains the [n]-th confirmed
    integer (fewer than [n] confirmed integers below a lower bound of at
    least 3, at least [n] up to the upper bound), [nth_prime] returns it
    from the bounded search, within [upper + 1] iterations of each loop:
    the result lies in the interval, is confirmed by the oracle and has
    exactly [n] confirmed integers up to it. *)
Theorem nth_prime_within_bounds (n lower upper : Z) :
  n <> 1 ->
  location_approximator n = Py.OK (lower, upper) ->
  3 <= lower ->
  count_confirmed (lower - 1) < n <= count_confirmed upper ->
  exists v,
    (forall fuel, (Z.to_nat upper < fuel)%nat ->
       nth_prime fuel n = Some (Py.OK v)) /\
    lower <= v <= upper /\
    miller_rabin v witnesses = true /\ count_confirmed v = n.
Proof.
  intros Hn1 Hloc Hlo Hcnt.
  assert (Hle : lower <= upper).
  { destruct (Z_le_gt_dec lower upper) as [H | H]; [exact H | exfalso].
    unfold count_confirmed in Hcnt.
    replace (lower - 1 + 1) with lower in Hcnt by lia.
    pose proof (confirmed_between_le 2 (upper + 1) lower ltac:(lia)). lia. }
  set (fuel0 := S (Z.to_nat upper)).
  destruct (count_below_terminates fuel0 lower 1 3) as (pc & Hpc);
    [subst fuel0; lia | ].
  pose proof Hpc as Hpcv.
  apply count_below_spec in Hpcv; [ | lia | reflexivity | reflexivity].
  rewrite Z.max_r in Hpcv by lia.
  destruct (start_candidate_shape lower) as (Hsle & Hshape & Htwo).
  assert (Hc : 3 <= start_candidate lower /\
               start_candidate lower mod 2 = 1 /\
               start_candidate lower <= lower + 1 /\
               pc = confirmed_between 2 (start_candidate lower)).
  { destruct Hshape as [H2 | Hodd]; [pose proof (Htwo H2); lia | ].
    unfold start_candidate in *.
    assert (E : (lower =? 2) = false) by (apply Z.eqb_neq; lia).
    rewrite E in *. destruct (lower mod 2 =? 0) eqn:E2.
    - apply Z.eqb_eq in E2. repeat split; [lia | exact Hodd | lia | ].
      rewrite confirmed_between_last by lia.
      rewrite (confirmed_even lower) by (assumption || lia). lia.
    - repeat split; [lia | exact Hodd | lia | exact Hpcv]. }
  destruct Hc as (Hc3 & Hodd & Hc1 & Hpcc).
  assert (Hlt : pc < n).
  { unfold count_confirmed in Hcnt.
    replace (lower - 1 + 1) with lower in Hcnt by lia. lia. }
  destruct (bounded_search_finds fuel0 n upper pc (start_candidate lower))
    as (v & Hv & Hrange);
    [exact Hc3 | exact Hodd | exact Hpcc | lia | subst fuel0; lia | ].
  pose proof (bounded_search_spec _ _ _ _ _ _ Hc3 Hodd Hpcc Hlt Hv) as Hok.
  cbn [exit_ok] in Hok.
  exists v. split; [ | split; [lia | exact Hok]].
  intros fuel Hf.
  rewrite (nth_prime_unfold _ n lower upper Hn1 Hloc).
  rewrite (count_below_more _ _ _ _ _ Hpc) by (subst fuel0; lia).
  rewrite (bounded_search_more _ _ _ _ _ _ Hv) by (subst fuel0; lia).
  reflexivity.
Qed.

Lemma nth_prime_within_bounds_witness :
  10 <> 1 /\
  location_approximator 10 = Py.OK (21, 32) /\
  3 <= 21 /\
  count_confirmed (21 - 1) < 10 <= count_confirmed 32 /\
  exists v,
    (forall fuel, (Z.to_nat 32 < fuel)%nat ->
       nth_prime fuel 10 = Some (Py.OK v)) /\
    21 <= v <= 32 /\
    miller_rabin v witnesses = true /\ count_confirmed v = 10.
Proof.
  assert (H1 : 10 <> 1) by discriminate.
  assert (H2 : location_approximator 10 = Py.OK (21, 32))
    by (vm_compute; reflexivity).
  assert (H3 : 3 <= 21) by lia.
  assert (H4 : count_confirmed (21 - 1) < 10 <= count_confirmed 32)
    by (vm_compute; split; [reflexivity | discriminate]).
  repeat (split; [assumption | ]).
  exact (nth_prime_within_bounds 10 21 32 H1 H2 H3 H4).
Defined.

(** ** The double count, in general *)

Lemma bounded_search_shift (fuel : nat) (k : Z) :
  forall n upper_bound prime_count candidate,
    bounded_search fuel (n + k) upper_bound (prime_count + k) candidate
    = option_map (shift_exit k)
        (bounded_search fuel n upper_bound prime_count candidate).
Proof.
  induction fuel as [ | fuel IH]; intros n ub pc c; [reflexivity | ].
  cbn [bounded_search].
  assert (E1 : (pc + k <? n + k) = (pc <? n)).
  { destruct (Z.ltb_spec (pc + k) (n + k)), (Z.ltb_spec pc n);
      reflexivity || lia. }
  assert (E2 : (pc + k + 1 =? n + k) = (pc + 1 =? n)).
  { destruct (Z.eqb_spec (pc + k + 1) (n + k)), (Z.eqb_spec (pc + 1) n);
      reflexivity || lia. }
  rewrite E1, E2.
  destruct ((pc <? n) && (c <=? ub)); [ | reflexivity].
  destruct ((c =? 2) || ((c >? 2) && miller_rabin c witnesses)).
  - destruct (pc + 1 =? n); [reflexivity | ].
    replace (pc + k + 1) with (pc + 1 + k) by lia. apply IH.
  - apply IH.
Qed.

Lemma fallback_search_shift (fuel : nat) (k : Z) :
  forall n prime_count candidate,
    fallback_search fuel (n + k) (prime_count + k) candidate
    = fallback_search fuel n prime_count candidate.
Proof.
  induction fuel as [ | fuel IH]; intros n pc c; [reflexivity | ].
  cbn [fallback_search].
  assert (E1 : (pc + k <? n + k) = (pc <? n)).
  { destruct (Z.ltb_spec (pc + k) (n + k)), (Z.ltb_spec pc n);
      reflexivity || lia. }
  assert (E2 : (pc + k + 1 =? n + k) = (pc + 1 =? n)).
  { destruct (Z.eqb_spec (pc + k + 1) (n + k)), (Z.eqb_spec (pc + 1) n);
      reflexivity || lia. }
  rewrite E1, E2.
  destruct (pc <? n); [ | reflexivity].
  destruct (miller_rabin c witnesses).
  - destruct (pc + 1 =? n); [reflexivity | ].
    replace (pc + k + 1) with (pc + 1 + k) by lia. apply IH.
  - apply IH.
Qed.

(** X12: when the estimator returns the lower bound 2 (with an upper
    bound of at least 2) for an index other than 1, the prime 2 is counted
    twice and the value returned is the [(n - 1)]-th confirmed integer, not
    the [n]-th. *)
Theorem nth_prime_lower_two_off_by_one (fuel : nat) (n upper v : Z) :
  n <> 1 ->
  location_approximator n = Py.OK (2, upper) -> 2 <= upper ->
  nth_prime fuel n = Some (Py.OK v) ->
  miller_rabin v witnesses = true /\ count_confirmed v = n - 1.
Proof.
  intros Hn1 Hloc Hup H.
  pose proof (location_approximator_index n 2 upper Hloc) as Hn.
  rewrite (nth_prime_unfold fuel n 2 upper Hn1 Hloc) in H.
  destruct (count_below fuel 2 1 3) as [pc | ] eqn:E1; [ | discriminate].
  apply count_below_from_two in E1. subst pc.
  change (start_candidate 2) with 2 in H.
  destruct fuel as [ | fuel]; [discriminate | ].
  cbn [bounded_search] in H.
  assert (E2 : (1 <? n) = true) by (apply Z.ltb_lt; lia).
  assert (E3 : (2 <=? upper) = true) by (apply Z.leb_le; exact Hup).
  rewrite E2, E3 in H. cbn [andb orb Z.eqb Pos.eqb] in H.
  change (1 + 1) with 2 in H.
  destruct (2 =? n) eqn:E4.
  - apply Z.eqb_eq in E4. subst n. injection H as <-.
    split; vm_compute; reflexivity.
  - apply Z.eqb_neq in E4.
    replace n with (n - 1 + 1) in H at 1 by lia.
    change 2 with (1 + 1) in H at 1.
    rewrite bounded_search_shift in H.
    destruct (bounded_search fuel (n - 1) upper 1 3) as [r | ] eqn:E5;
      [ | discriminate].
    apply bounded_search_spec in E5;
      [ | lia | reflexivity | vm_compute; reflexivity | lia].
    destruct r as [w | pc' c']; cbn [option_map shift_exit exit_ok] in *.
    + injection H as <-. exact E5.
    + destruct E5 as (Hc' & Hodd' & Hpc' & Hlt').
      replace n with (n - 1 + 1) in H at 1 by lia.
      cbn [fallback_search] in H.
      assert (E6 : (pc' + 1 <? n - 1 + 1) = true) by (apply Z.ltb_lt; lia).
      rewrite E6 in H.
      pose proof (confirmed_between_odd_step c' Hc' Hodd') as Hstep.
      unfold confirmed in Hstep.
      destruct (miller_rabin c' witnesses) eqn:Emr.
      * destruct (pc' + 1 + 1 =? n - 1 + 1) eqn:E7.
        -- injection H as <-. apply Z.eqb_eq in E7. split; [exact Emr | ].
           unfold count_confirmed. rewrite confirmed_between_last by lia.
           unfold confirmed. rewrite Emr. lia.
        -- apply Z.eqb_neq in E7. rewrite fallback_search_shift in H.
           destruct (fallback_search fuel (n - 1) (pc' + 1) (c' + 2))
             as [w | ] eqn:E8; [ | discriminate].
           injection H as <-.
           apply fallback_search_spec in E8;
             [exact E8 | lia | apply odd_plus_2; exact Hodd' | lia | lia].
      * rewrite fallback_search_shift in H.
        destruct (fallback_search fuel (n - 1) pc' (c' + 2))
          as [w | ] eqn:E8; [ | discriminate].
        injection H as <-.
        apply fallback_search_spec in E8;
          [exact E8 | lia | apply odd_plus_2; exact Hodd' | lia | lia].
Qed.

Lemma nth_prime_lower_two_off_by_one_witness :
  5 <> 1 /\
  location_approximator 5 = Py.OK (2, 30) /\ 2 <= 30 /\
  nth_prime 10 5 = Some (Py.OK 7) /\
  miller_rabin 7 witnesses = true /\ count_confirmed 7 = 5 - 1.
Proof.
  assert (H1 : 5 <> 1) by discriminate.
  assert (H2 : location_approximator 5 = Py.OK (2, 30))
    by (vm_compute; reflexivity).
  assert (H3 : 2 <= 30) by lia.
  assert (H4 : nth_prime 10 5 = Some (Py.OK 7)) by (vm_compute; reflexivity).
  repeat (split; [assumption | ]).
  exact (nth_prime_lower_two_off_by_one 10 5 30 7 H1 H2 H3 H4).
Defined.

(** ** The fallback search as a safety net *)

(** X13: a valid lower bound is enough.  When the lower bound is at least
    3 and fewer than [n] confirmed integers lie below it, [nth_prime]
    terminates and returns the [n]-th confirmed integer, whatever the
    upper bound: if the interval is too short the fallback search finds
    it.  Every run that finishes returns that same value. *)
Theorem nth_prime_valid_lower_bound (n lower upper : Z) :
  n <> 1 ->
  location_approximator n = Py.OK (lower, upper) ->
  3 <= lower -> count_confirmed (lower - 1) < n ->
  exists v,
    miller_rabin v witnesses = true /\ count_confirmed v = n /\
    (exists fuel, nth_prime fuel n = Some (Py.OK v)) /\
    (forall fuel r, nth_prime fuel n = Some r -> r = Py.OK v).
Proof.
  intros Hn1 Hloc Hlo Hcnt.
  destruct (nth_prime_terminates_aux n lower upper Hloc ltac:(lia))
    as (fuel0 & v & Hv).
  destruct (nth_prime_round_trip fuel0 n lower upper v Hn1 Hloc Hlo Hcnt Hv)
    as [Hmr Hc].
  exists v. split; [exact Hmr | split; [exact Hc | split]].
  - exists fuel0. exact Hv.
  - intros fuel r Hr.
    apply (nth_prime_more _ (Nat.max fuel fuel0)) in Hr; [ | lia].
    apply (nth_prime_more _ (Nat.max fuel fuel0)) in Hv; [ | lia].
    congruence.
Qed.

Lemma nth_prime_valid_lower_bound_witness :
  3 <> 1 /\
  location_approximator 3 = Py.OK (5, 5) /\
  3 <= 5 /\ count_confirmed (5 - 1) < 3 /\
  exists v,
    miller_rabin v witnesses = true /\ count_confirmed v = 3 /\
    (exists fuel, nth_prime fuel 3 = Some (Py.OK v)) /\
    (forall fuel r, nth_prime fuel 3 = Some r -> r = Py.OK v).
Proof.
  assert (H1 : 3 <> 1) by discriminate.
  assert (H2 : location_approximator 3 = Py.OK (5, 5))
    by (vm_compute; reflexivity).
  assert (H3 : 3 <= 5) by lia.
  assert (H4 : count_confirmed (5 - 1) < 3) by (vm_compute; reflexivity).
  repeat (split; [assumption | ]).
  exact (nth_prime_valid_lower_bound 3 5 5 H1 H2 H3 H4).
Defined.

(** ** The estimator always assigns its two variables *)

Lemma never_raises_bind {A B : Type} (e : Py.exn) (c : Py.res A)
      (k : A -> Py.res B) :
  never_raises e c -> (forall a, never_raises e (k a)) ->
  never_raises e (Py.bind c k).
Proof. destruct c as [a | e']; cbn; auto. Qed.

Lemma to_float_bound (n : Z) : never_raises Py.UnboundLocalError (Py.to_float n).
Proof.
  unfold Py.to_float. destruct (is_infinity (Py.float_of_Z n)); cbn;
    [discriminate | exact I].
Qed.

Lemma mul_int_bound (n : Z) (x : float) :
  never_raises Py.UnboundLocalError (Py.mul_int n x).
Proof.
  unfold Py.mul_int. apply never_raises_bind; [apply to_float_bound | ].
  intros a. exact I.
Qed.

Lemma int_bound (x : float) : never_raises Py.UnboundLocalError (Py.int x).
Proof.
  unfold Py.int. destruct (Prim2SF x); cbn; try exact I; discriminate.
Qed.

Lemma truediv_bound (x y : float) :
  never_raises Py.UnboundLocalError (Py.truediv x y).
Proof.
  unfold Py.truediv. destruct (y =? 0)%float; cbn; [discriminate | exact I].
Qed.

Lemma square_bound (x : float) :
  never_raises Py.UnboundLocalError (Py.square x).
Proof.
  unfold Py.square.
  destruct (is_infinity (x * x) && is_finite x); cbn; [discriminate | exact I].
Qed.

Lemma math_log_bound (x : float) :
  never_raises Py.UnboundLocalError (Py.math_log x).
Proof.
  unfold Py.math_log. destruct (is_nan x); [exact I | ].
  destruct (0 <? x)%float; [ | discriminate].
  destruct (is_infinity x); exact I.
Qed.

Lemma math_log_int_bound (n : Z) :
  never_raises Py.UnboundLocalError (Py.math_log_int n).
Proof.
  unfold Py.math_log_int. destruct (n <=? 0); [discriminate | ].
  destruct (Py.to_float n); [apply math_log_bound | ].
  destruct (Py.frexp_int n) as [x e0].
  apply never_raises_bind; [apply math_log_bound | intros lx].
  apply never_raises_bind; [apply math_log_bound | intros l2]. exact I.
Qed.

Ltac bound_step :=
  first
    [ apply mul_int_bound | apply int_bound | apply truediv_bound
    | apply square_bound | apply math_log_bound | apply math_log_int_bound
    | apply to_float_bound
    | apply never_raises_bind; [ | intros ? ]
    | exact I ].

Lemma rosser_schoenfeld_bound (n : Z) (ln_n ln_ln_n : float) :
  never_raises Py.UnboundLocalError (rosser_schoenfeld n ln_n ln_ln_n).
Proof. unfold rosser_schoenfeld. repeat bound_step. Qed.

Lemma dusart_bound (n : Z) (ln_n ln_ln_n : float) :
  never_raises Py.UnboundLocalError (dusart n ln_n ln_ln_n).
Proof. unfold dusart. repeat bound_step. Qed.

(** X14: [location_approximator] never fails with [UnboundLocalError]:
    for every [n] one of its three [if] statements has assigned
    [lower_bound] and [upper_bound] when they are read. *)
Theorem location_approximator_always_bound (n : Z) :
  never_raises Py.UnboundLocalError (location_approximator n).
Proof.
  unfold location_approximator.
  destruct (n =? 1); [exact I | ].
  destruct (n =? 2); [exact I | ].
  destruct (n =? 3); [exact I | ].
  unfold unadjusted_bounds.
  pose proof (math_log_int_bound n) as H1.
  destruct (Py.math_log_int n) as [ln_n | e]; [ | exact H1].
  cbn [Py.bind].
  pose proof (math_log_bound ln_n) as H2.
  destruct (Py.math_log ln_n) as [ln_ln_n | e]; [ | exact H2].
  cbn [Py.bind]. rewrite !Z.geb_leb.
  pose proof (rosser_schoenfeld_bound n ln_n ln_ln_n) as Hr.
  pose proof (dusart_bound n ln_n ln_ln_n) as Hd.
  destruct (Z.ltb_spec n 6) as [H6 | H6].
  - assert (E1 : (6 <=? n) = false) by (apply Z.leb_gt; lia).
    assert (E2 : (688383 <=? n) = false) by (apply Z.leb_gt; lia).
    rewrite E1, E2. exact I.
  - assert (E1 : (6 <=? n) = true) by (apply Z.leb_le; lia).
    rewrite E1.
    destruct (rosser_schoenfeld n ln_n ln_ln_n) as [b | e]; [ | exact Hr].
    cbn [Py.bind]. destruct (688383 <=? n); [ | exact I].
    destruct (dusart n ln_n ln_ln_n) as [b' | e]; [exact I | exact Hd].
Qed.

(** ** The odd-start adjustment *)

(** X15: the odd-start adjustment leaves the upper bound alone, raises
    the lower bound by at most 1, and never lets an even number above 2
    out as lower bound. *)
Theorem location_approximator_adjustment (n lower upper : Z) :
  n <> 1 -> n <> 2 -> n <> 3 ->
  location_approximator n = Py.OK (lower, upper) ->
  exists lower0,
    unadjusted_bounds n = Py.OK (lower0, upper) /\
    (lower0 <= lower <= lower0 + 1) /\
    ~ (2 < lower /\ lower mod 2 = 0).
Proof.
  intros H1 H2 H3 H.
  pose proof (location_approximator_lower_not_even n lower upper H) as Hne.
  unfold location_approximator in H.
  apply Z.eqb_neq in H1, H2, H3. rewrite H1, H2, H3 in H.
  destruct (unadjusted_bounds n) as [[lo up] | e]; [ | discriminate H].
  cbn [Py.bind odd_start] in H.
  destruct ((lo >? 2) && (lo mod 2 =? 0)); injection H as <- <-;
    exists lo; (split; [reflexivity | split; [lia | exact Hne]]).
Qed.

Lemma location_approximator_adjustment_witness :
  6 <> 1 /\ 6 <> 2 /\ 6 <> 3 /\
  location_approximator 6 = Py.OK (9, 15) /\
  exists lower0,
    unadjusted_bounds 6 = Py.OK (lower0, 15) /\
    (lower0 <= 9 <= lower0 + 1) /\
    ~ (2 < 9 /\ 9 mod 2 = 0).
Proof.
  assert (H1 : 6 <> 1) by discriminate.
  assert (H2 : 6 <> 2) by discriminate.
  assert (H3 : 6 <> 3) by discriminate.
  assert (H4 : location_approximator 6 = Py.OK (9, 15))
    by (vm_compute; reflexivity).
  repeat (split; [assumption | ]).
  exact (location_approximator_adjustment 6 9 15 H1 H2 H3 H4).
Defined.

(** ** The result against the true primes *)

Lemma primeb_spec (q : Z) : primeb q = true <-> Z.prime q.
Proof.
  unfold primeb. apply trial_division_prime.
  destruct (Z_lt_le_dec q 0) as [H | H]; [lia | ].
  rewrite Z2Nat.id by exact H. nia.
Qed.

Lemma confirmed_of_prime (q : Z) : primeb q = true -> confirmed q = 1.
Proof.
  intros H. apply primeb_spec in H. unfold confirmed.
  rewrite (miller_rabin_accepts_prime q witnesses H); [reflexivity | ].
  apply usable_witnesses_fixed. exact (Z.prime_ge_2 q H).
Qed.

Lemma confirmed_upto_million (q : Z) :
  2 <= q <= 10 ^ 6 -> confirmed q = if primeb q then 1 else 0.
Proof.
  intros Hq. destruct (primeb q) eqn:E; [apply confirmed_of_prime; exact E | ].
  unfold confirmed.
  rewrite <- (fast_miller_rabin q witnesses)
    by (try exact small_witnesses_fixed; lia).
  rewrite (agree_range_spec _ _ _ oracle_agrees_upto_million q) by lia.
  rewrite fast_trial_division by lia.
  destruct (trial_division 500 q) eqn:Et; [ | reflexivity].
  apply trial_division_sound in Et. apply primeb_spec in Et. congruence.
Qed.

Lemma prime_count_from_le (k : nat) :
  forall q, prime_count_from k q <= count_confirmed_from k q.
Proof.
  induction k as [ | k IH]; intros q;
    cbn [prime_count_from count_confirmed_from]; [lia | ].
  pose proof (IH (q + 1)). pose proof (confirmed_nonneg q).
  destruct (primeb q) eqn:E; [rewrite (confirmed_of_prime q E) | ]; lia.
Qed.

Lemma prime_count_from_eq (k : nat) :
  forall q, 2 <= q -> q + Z.of_nat k - 1 <= 10 ^ 6 ->
    prime_count_from k q = count_confirmed_from k q.
Proof.
  induction k as [ | k IH]; intros q Hq Hk;
    cbn [prime_count_from count_confirmed_from]; [reflexivity | ].
  rewrite IH, confirmed_upto_million by lia. reflexivity.
Qed.

Lemma prime_pi_le (p : Z) : prime_pi p <= count_confirmed p.
Proof. apply prime_count_from_le. Qed.

Lemma prime_pi_eq (p : Z) : p <= 10 ^ 6 -> prime_pi p = count_confirmed p.
Proof.
  intros Hp. unfold prime_pi, count_confirmed, confirmed_between.
  destruct (Z_lt_le_dec p 2) as [H | H].
  - replace (Z.to_nat (p + 1 - 2)) with 0%nat by lia. reflexivity.
  - apply prime_count_from_eq; lia.
Qed.

(** X16: with a valid lower bound, the value [nth_prime] returns never
    lies beyond the true [n]-th prime: at most [n] primes are below or
    equal to it, and it is at most every [p] that has [n] or more primes
    below or equal to it (the [n]-th prime is the least such [p]).  When
    it does not exceed 10^6 it is exactly the [n]-th prime: it is prime
    and exactly [n] primes are below or equal to it. *)
Theorem nth_prime_is_nth_prime (fuel : nat) (n lower upper v : Z) :
  n <> 1 ->
  location_approximator n = Py.OK (lower, upper) ->
  3 <= lower -> count_confirmed (lower - 1) < n ->
  nth_prime fuel n = Some (Py.OK v) ->
  prime_pi v <= n /\
  (forall p, n <= prime_pi p -> v <= p) /\
  (v <= 10 ^ 6 -> Z.prime v /\ prime_pi v = n).
Proof.
  intros Hn1 Hloc Hlo Hcnt H.
  destruct (nth_prime_round_trip fuel n lower upper v Hn1 Hloc Hlo Hcnt H)
    as [Hmr Hc].
  assert (Hv2 : 2 <= v).
  { destruct (Z_lt_le_dec v 2) as [Hlt | Hge]; [ | exact Hge].
    exfalso. unfold miller_rabin, miller_rabin_fuel in Hmr.
    apply Z.ltb_lt in Hlt. rewrite Hlt in Hmr. discriminate Hmr. }
  split; [rewrite <- Hc; apply prime_pi_le | split].
  - intros p Hp. destruct (Z_lt_le_dec p v) as [Hlt | Hge]; [ | exact Hge].
    exfalso. pose proof (prime_pi_le p) as Hpi.
    assert (Hm : count_confirmed p <= confirmed_between 2 v)
      by (apply confirmed_between_le; lia).
    unfold count_confirmed in Hc.
    rewrite confirmed_between_last in Hc by exact Hv2.
    unfold confirmed in Hc. rewrite Hmr in Hc. lia.
  - intros Hv. split; [ | rewrite prime_pi_eq; assumption].
    pose proof (confirmed_upto_million v ltac:(lia)) as Hcv.
    unfold confirmed in Hcv. rewrite Hmr in Hcv.
    apply primeb_spec. destruct (primeb v); [reflexivity | discriminate Hcv].
Qed.

Lemma nth_prime_is_nth_prime_witness :
  100 <> 1 /\
  location_approximator 100 = Py.OK (513, 614) /\
  3 <= 513 /\ count_confirmed (513 - 1) < 100 /\
  nth_prime 300 100 = Some (Py.OK 541) /\
  prime_pi 541 <= 100 /\
  (forall p, 100 <= prime_pi p -> 541 <= p) /\
  (541 <= 10 ^ 6 -> Z.prime 541 /\ prime_pi 541 = 100).
Proof.
  assert (H1 : 100 <> 1) by discriminate.
  assert (H2 : location_approximator 100 = Py.OK (513, 614))
    by (vm_compute; reflexivity).
  assert (H3 : 3 <= 513) by lia.
  assert (H4 : count_confirmed (513 - 1) < 100) by (vm_compute; reflexivity).
  assert (H5 : nth_prime 300 100 = Some (Py.OK 541))
    by (vm_compute; reflexivity).
  repeat (split; [assumption | ]).
  exact (nth_prime_is_nth_prime 300 100 513 614 541 H1 H2 H3 H4 H5).
Defined.
